(** * files-to-prompt: a shallow embedding of [files_to_prompt/cli.py]

    The development follows the Python module function by function.  Python
    [str] values are modelled as [string]s whose characters stand for code
    points below 256, so that comparison of strings is comparison by code
    point as in Python.  The filesystem is a finite tree; the mutable process
    state (the output sink, the error stream and the module-level
    [global_index]) is threaded explicitly through a small state-and-exception
    monad.  Functions of third-party libraries ([fnmatch], [pathspec],
    [pathlib]) are taken through the interface [Externals]. *)

From Stdlib Require Import String Ascii List Arith Lia Bool Sorted Permutation.
From Stdlib Require Import DecimalString DecimalFacts DecimalNat.
From stdpp Require Import base list strings sorting.

(* ------------------------------------------------------------------------- *)
(** ** Python string operations *)

Module Str.

(** [s.startswith(p)] *)
Definition startswith (s p : string) : bool := String.prefix p s.

(** [s.endswith(suf)]: [suf] is equal to some tail of [s]. *)
Fixpoint endswith (s suf : string) : bool :=
  String.eqb s suf ||
  match s with
  | EmptyString => false
  | String _ s' => endswith s' suf
  end.

(** [s.endswith(t)] for a tuple [t] of suffixes. *)
Definition endswith_any (s : string) (t : list string) : bool :=
  existsb (endswith s) t.

(** [sub in s]: [sub] is a prefix of some tail of [s]. *)
Fixpoint contains (sub s : string) : bool :=
  String.prefix sub s ||
  match s with
  | EmptyString => false
  | String _ s' => contains sub s'
  end.

(** [c.isspace()] for a code point below 256. *)
Definition isspace (c : ascii) : bool :=
  match c with
  | "009" | "010" | "011" | "012" | "013"
  | "028" | "029" | "030" | "031" | " " | "133" | "160" => true
  | _ => false
  end%char.

Fixpoint lstrip (s : string) : string :=
  match s with
  | EmptyString => EmptyString
  | String c s' => if isspace c then lstrip s' else s
  end.

Definition rstrip (s : string) : string := String.rev (lstrip (String.rev s)).

(** [s.strip()] *)
Definition strip (s : string) : string := rstrip (lstrip s).

(** [str(n)] for a non-negative integer. *)
Definition of_nat (n : nat) : string := NilEmpty.string_of_uint (Nat.to_uint n).

Fixpoint repeat (c : ascii) (n : nat) : string :=
  match n with
  | 0 => EmptyString
  | S n' => String c (repeat c n')
  end.

(** [format(s, ">w")]: right-aligned in a field of width [w]. *)
Definition rjust (w : nat) (s : string) : string :=
  repeat " " (w - String.length s) +:+ s.

Definition snoc (s : string) (c : ascii) : string := s +:+ String c EmptyString.

(** The pieces of [s] between the characters accepted by [sep]. *)
Fixpoint split_go (sep : ascii -> bool) (cur s : string) : list string :=
  match s with
  | EmptyString => [cur]
  | String c s' =>
      if sep c then cur :: split_go sep EmptyString s'
      else split_go sep (snoc cur c) s'
  end.

(** [s.split(sep)] for a one-character separator. *)
Definition split (sep : ascii) (s : string) : list string :=
  split_go (Ascii.eqb sep) EmptyString s.

Definition nonempty (s : string) : bool := negb (String.eqb s EmptyString).

(** [s.split()]: the non-empty pieces between runs of whitespace. *)
Definition split_whitespace (s : string) : list string :=
  List.filter nonempty (split_go isspace EmptyString s).

(** Line splitting at the characters accepted by [brk]; a carriage return
    directly followed by a line feed counts as one boundary, and a final
    line without terminator is kept when it is not empty. *)
Fixpoint lines_go (brk : ascii -> bool) (cur s : string) : list string :=
  match s with
  | EmptyString => if String.eqb cur EmptyString then [] else [cur]
  | String c s' =>
      if brk c then
        cur :: match s' with
               | String "010" s'' =>
                   if Ascii.eqb c "013" then lines_go brk EmptyString s''
                   else lines_go brk EmptyString s'
               | _ => lines_go brk EmptyString s'
               end
      else lines_go brk (snoc cur c) s'
  end%char.

(** The line boundaries of [str.splitlines()] below code point 256. *)
Definition is_linebreak (c : ascii) : bool :=
  match c with
  | "010" | "011" | "012" | "013" | "028" | "029" | "030" | "133" => true
  | _ => false
  end%char.

(** [s.splitlines()] *)
Definition splitlines (s : string) : list string :=
  lines_go is_linebreak EmptyString s.

(** The lines produced by iterating over a text file whose newlines were
    already translated to line feeds, without their terminators. *)
Definition file_lines (s : string) : list string :=
  lines_go (Ascii.eqb "010"%char) EmptyString s.

(** [sep.join(l)] *)
Definition join (sep : string) (l : list string) : string := String.concat sep l.

(** [d.get(k, default)] on a dictionary given as its list of items. *)
Fixpoint dict_get (d : list (string * string)) (k default : string) : string :=
  match d with
  | [] => default
  | (k', v) :: d' => if String.eqb k' k then v else dict_get d' k default
  end.

End Str.

(* ------------------------------------------------------------------------- *)
(** ** Third-party functions

    [fnmatch.fnmatch], [pathspec.PathSpec] with [GitWildMatchPattern], and
    [pathlib.Path] are libraries the module imports.  The program is embedded
    over this interface; [Reference] below gives an executable instance. *)

Class Externals := {
  (** [fnmatch(name, pat)] *)
  fnmatch : string -> string -> bool;
  (** [PathSpec.from_lines(GitWildMatchPattern, lines)] applied to one path:
      whether [match_files] reports the path as matched. *)
  match_file : list string -> string -> bool;
  (** [Path(s).as_posix()] *)
  as_posix : string -> string
}.

(* ------------------------------------------------------------------------- *)
(** ** Paths *)

(** [os.path.join(a, b)] on a POSIX system. *)
Definition os_path_join (a b : string) : string :=
  if Str.startswith b "/" then b
  else if String.eqb a "" || Str.endswith a "/" then a +:+ b
  else a +:+ "/" +:+ b.

(** A relative [Path] object is the list of its parts: [rel / item] appends a
    part, and [str] joins the parts with slashes (the empty path is [.]). *)
Definition rel_path := list string.

Definition path_div (rel : rel_path) (item : string) : rel_path := rel ++ [item].

Definition path_str (rel : rel_path) : string :=
  match rel with
  | [] => "."
  | _ => Str.join "/" rel
  end.

(* ------------------------------------------------------------------------- *)
(** ** The filesystem

    A file either decodes as UTF-8, and then [Text s] holds what [f.read()]
    returns, or reading it raises [UnicodeDecodeError]; a file that does not
    decode is taken to fail in its first buffer, so that iterating over its
    lines yields no line before the exception.  A directory lists its entries
    in the order in which the operating system returns them, under distinct
    names.  Symbolic links and directories that cannot be listed are outside
    the model. *)

Inductive data :=
| Text (s : string)
| Binary.

#[warnings="-register-all"] Inductive node :=
| File (d : data)
| Dir (entries : list (string * node)).

Definition is_dir (n : node) : bool :=
  match n with Dir _ => true | File _ => false end.

Definition is_file (n : node) : bool :=
  match n with File _ => true | Dir _ => false end.

(** The two lists [os.walk] builds from a directory listing. *)
Definition dir_names (es : list (string * node)) : list string :=
  List.map fst (List.filter (fun e => is_dir (snd e)) es).

Definition file_names (es : list (string * node)) : list string :=
  List.map fst (List.filter (fun e => is_file (snd e)) es).

(** The entry a name resolves to in a directory. *)
Fixpoint entry (name : string) (es : list (string * node)) : option node :=
  match es with
  | [] => None
  | (n, x) :: es' => if String.eqb n name then Some x else entry name es'
  end.

(** Membership of a name in a list of names: [name in names]. *)
Definition mem (name : string) (names : list string) : bool :=
  existsb (String.eqb name) names.

(** Membership of a [Path] in a set of paths: paths are equal when their
    parts are. *)
Definition path_in (p : list string) (paths : list (list string)) : bool :=
  existsb (fun q => bool_decide (p = q)) paths.

(* ------------------------------------------------------------------------- *)
(** ** Process state and exceptions *)

Record state := mkState {
  out : list string;          (* the lines passed to [writer], oldest first *)
  err : list string;          (* the warnings echoed to standard error *)
  global_index : nat          (* the module-level counter *)
}.

Inductive exn :=
| BadParameter (path : string)          (* click.Path(exists=True) *)
| BadArgumentUsage (msg : string)
| FileNotFoundError (path : string).

Definition is_usage_error (e : exn) : bool :=
  match e with
  | BadParameter _ | BadArgumentUsage _ => true
  | FileNotFoundError _ => false
  end.

Inductive result (A : Type) :=
| Ok (a : A)
| Raise (e : exn).
Arguments Ok {A} a.
Arguments Raise {A} e.

Definition M (A : Type) : Type := state -> result A * state.

Definition ret {A} (a : A) : M A := fun st => (Ok a, st).

Definition bind {A B} (m : M A) (k : A -> M B) : M B :=
  fun st =>
    match m st with
    | (Ok a, st') => k a st'
    | (Raise e, st') => (Raise e, st')
    end.

Definition raise {A} (e : exn) : M A := fun st => (Raise e, st).

Notation "x <- m ;; k" := (bind m (fun x => k))
  (at level 100, m at next level, right associativity).
Notation "m ;; k" := (bind m (fun _ => k))
  (at level 100, right associativity).

(** [writer(s)]: one more line on the output sink. *)
Definition writer (s : string) : M unit :=
  fun st => (Ok tt, mkState (out st ++ [s]) (err st) (global_index st)).

(** [click.echo(click.style(msg, fg="red"), err=True)] *)
Definition warn (msg : string) : M unit :=
  fun st => (Ok tt, mkState (out st) (err st ++ [msg]) (global_index st)).

Definition get_global_index : M nat := fun st => (Ok (global_index st), st).

Definition set_global_index (n : nat) : M unit :=
  fun st => (Ok tt, mkState (out st) (err st) n).

(** [for x in l: body(x)] *)
Fixpoint for_each {A} (l : list A) (body : A -> M unit) : M unit :=
  match l with
  | [] => ret tt
  | x :: l' => body x ;; for_each l' body
  end.

Definition when (b : bool) (m : M unit) : M unit := if b then m else ret tt.

(* ------------------------------------------------------------------------- *)
(** ** Renderers *)

Definition EXT_TO_LANG : list (string * string) :=
  [ ("py", "python"); ("c", "c"); ("cpp", "cpp"); ("java", "java");
    ("js", "javascript"); ("ts", "typescript"); ("html", "html");
    ("css", "css"); ("xml", "xml"); ("json", "json"); ("yaml", "yaml");
    ("yml", "yaml"); ("sh", "bash"); ("rb", "ruby") ].

Definition newline : string := String "010"%char EmptyString.
Definition dquote : string := String "034"%char EmptyString.

Definition add_line_numbers (content : string) : string :=
  let lines := Str.splitlines content in
  let padding := String.length (Str.of_nat (length lines)) in
  let numbered_lines :=
    imap (fun i line => Str.rjust padding (Str.of_nat (i + 1)) +:+ "  " +:+ line) lines in
  Str.join newline numbered_lines.

Definition numbered (line_numbers : bool) (content : string) : string :=
  if line_numbers then add_line_numbers content else content.

Definition print_default (path content : string) (line_numbers : bool) : M unit :=
  writer path ;;
  writer "---" ;;
  writer (numbered line_numbers content) ;;
  writer "" ;;
  writer "---".

Definition print_as_xml (path content : string) (line_numbers : bool) : M unit :=
  index <- get_global_index ;;
  writer ("<document index=" +:+ dquote +:+ Str.of_nat index +:+ dquote +:+ ">") ;;
  writer ("<source>" +:+ path +:+ "</source>") ;;
  writer "<document_content>" ;;
  writer (numbered line_numbers content) ;;
  writer "</document_content>" ;;
  writer "</document>" ;;
  set_global_index (index + 1).

(** The loop [while backticks in content: backticks += "`"], run for at most
    [fuel] evaluations of its test. *)
Fixpoint fence_loop (fuel : nat) (content backticks : string) : option string :=
  match fuel with
  | 0 => None
  | S fuel' =>
      if Str.contains backticks content
      then fence_loop fuel' content (Str.snoc backticks "`")
      else Some backticks
  end.

(** The fence marker: the loop started from three backticks.  One more test
    than the content has characters always suffices ([fence_loop_terminates]
    below), so the default is never used. *)
Definition fence (content : string) : string :=
  default "```" (fence_loop (S (String.length content)) content "```").

Definition print_as_markdown (path content : string) (line_numbers : bool) : M unit :=
  let lang := Str.dict_get EXT_TO_LANG (List.last (Str.split "." path) "") "" in
  let backticks := fence content in
  writer path ;;
  writer (backticks +:+ lang) ;;
  writer (numbered line_numbers content) ;;
  writer backticks.

Section Program.
Context {E : Externals}.

Definition print_path (path content : string) (cxml markdown line_numbers : bool) : M unit :=
  let normalized_path := as_posix path in
  if cxml then print_as_xml normalized_path content line_numbers
  else if markdown then print_as_markdown normalized_path content line_numbers
  else print_default normalized_path content line_numbers.

(** *** The configuration of one invocation *)

Record config := mkConfig {
  extensions : list string;
  include_hidden : bool;
  ignore_files_only : bool;
  ignore_gitignore : bool;
  ignore_patterns : list string;
  claude_xml : bool;
  markdown : bool;
  line_numbers : bool
}.

(** Truth value of a tuple: it is not empty. *)
Definition truthy {A} (l : list A) : bool :=
  match l with [] => false | _ => true end.

(** *** Collecting the [.gitignore] patterns (lines 107-128) *)

(** Lines 121-124: the pattern appended for a stripped line of the
    [.gitignore] in [relative_dir]. *)
Definition anchored (relative_dir : rel_path) (line : string) : string :=
  if String.eqb (path_str relative_dir) "." then line
  else path_str relative_dir +:+ "/" +:+ line.

(** Lines 116-124: the patterns one decodable [.gitignore] contributes. *)
Definition gitignore_patterns (relative_dir : rel_path) (content : string) : list string :=
  flat_map
    (fun line =>
       let line := Str.strip line in
       if Str.nonempty line && negb (Str.startswith line "#")
       then [anchored relative_dir line]
       else [])
    (Str.file_lines content).

(** What the first walk does, in order: a pattern appended to [all_patterns]
    or a warning echoed. *)
Inductive event :=
| Pattern (p : string)
| Warning (msg : string).

Definition skipped_gitignore (gitignore_file : string) : string :=
  "Warning: Skipping .gitignore file " +:+ gitignore_file +:+ " due to UnicodeDecodeError".

(** Lines 109-128, with [os.walk] unfolded: every directory is visited, top
    down, in listing order. *)
Fixpoint gitignore_walk (root : string) (relative_dir : rel_path) (n : node) : list event :=
  match n with
  | File _ => []
  | Dir es =>
      match entry ".gitignore" es with
      | Some (File (Text content)) =>
          List.map Pattern (gitignore_patterns relative_dir content)
      | Some (File Binary) =>
          [Warning (skipped_gitignore (as_posix (os_path_join root ".gitignore")))]
      | _ => []
      end ++
      flat_map
        (fun e => gitignore_walk (os_path_join root (fst e))
                                 (path_div relative_dir (fst e)) (snd e))
        es
  end.

Definition patterns_of (evs : list event) : list string :=
  flat_map (fun ev => match ev with Pattern p => [p] | Warning _ => [] end) evs.

Definition warnings_of (evs : list event) : list string :=
  flat_map (fun ev => match ev with Warning m => [m] | Pattern _ => [] end) evs.

(** *** The filtered walk (lines 133-160) *)

(** Lines 135-157: the body of the loop, from the lists [os.walk] yields for
    the directory at [rel] to the pruned [dirs] and the kept [files]. *)
Definition filter_listing (cfg : config) (all_patterns : list string)
    (rel : rel_path) (dirs files : list string) : list string * list string :=
  (* Filter hidden files and directories first *)
  let dirs1 :=
    if include_hidden cfg then dirs
    else List.filter (fun d => negb (Str.startswith d ".")) dirs in
  let files1 :=
    if include_hidden cfg then files
    else List.filter (fun f => negb (Str.startswith f ".")) files in
  (* Filter based on --ignore patterns *)
  let dirs2 :=
    if truthy (ignore_patterns cfg) && negb (ignore_files_only cfg)
    then List.filter (fun d => negb (existsb (fnmatch d) (ignore_patterns cfg))) dirs1
    else dirs1 in
  let files2 :=
    if truthy (ignore_patterns cfg)
    then List.filter (fun f => negb (existsb (fnmatch f) (ignore_patterns cfg))) files1
    else files1 in
  (* Combine dirs and files for gitignore checking *)
  let paths_to_check := List.map (path_div rel) (dirs2 ++ files2) in
  let ignored_paths :=
    List.filter (fun p => match_file all_patterns (path_str p)) paths_to_check in
  let dirs3 :=
    List.filter (fun d => negb (path_in (path_div rel d) ignored_paths)) dirs2 in
  let files3 :=
    List.filter (fun f => negb (path_in (path_div rel f) ignored_paths)) files2 in
  (* Filter based on extensions *)
  let files4 :=
    if truthy (extensions cfg)
    then List.filter (fun f => Str.endswith_any f (extensions cfg)) files3
    else files3 in
  (dirs3, files4).

(** Lines 134-160, with [os.walk] unfolded: the files kept in a directory are
    appended to [files_to_process], then the directories left in [dirs] are
    walked in listing order.  The loop body only removes names from [dirs],
    so the directories walked are the entries, in listing order, whose name is
    still in [dirs]. *)
Fixpoint walk (cfg : config) (all_patterns : list string)
    (root : string) (rel : rel_path) (n : node) : list string :=
  match n with
  | File _ => []
  | Dir es =>
      let '(dirs, files) :=
        filter_listing cfg all_patterns rel (dir_names es) (file_names es) in
      List.map (os_path_join root) files ++
      flat_map
        (fun e =>
           if is_dir (snd e) && mem (fst e) dirs
           then walk cfg all_patterns (os_path_join root (fst e)) (path_div rel (fst e)) (snd e)
           else [])
        es
  end.

(** [sorted(l)] on strings. *)
Definition sorted (l : list string) : list string := merge_sort String.le l.

(** The walker: the paths the emission loop iterates over (line 162). *)
Definition files_in_order (cfg : config) (all_patterns : list string)
    (path : string) (n : node) : list string :=
  sorted (walk cfg all_patterns path [] n).

(** *** Reading and emitting (lines 162-175) *)

(** Every regular file below a directory, under the path string the walk
    composes for it: what [open] finds. *)
Fixpoint files_below (root : string) (n : node) : list (string * data) :=
  match n with
  | File _ => []
  | Dir es =>
      flat_map
        (fun e =>
           match snd e with
           | File d => [(os_path_join root (fst e), d)]
           | Dir _ => files_below (os_path_join root (fst e)) (snd e)
           end)
        es
  end.

Definition open_read (table : list (string * data)) (file_path : string) : option data :=
  option_map snd (List.find (fun e => String.eqb (fst e) file_path) table).

Definition skipped_file (file_path : string) : string :=
  "Warning: Skipping file " +:+ file_path +:+ " due to UnicodeDecodeError".

(** Lines 163-175: the body of the emission loop. *)
Definition emit_file (table : list (string * data)) (cfg : config) (file_path : string) : M unit :=
  match open_read table file_path with
  | Some (Text content) =>
      print_path file_path content (claude_xml cfg) (markdown cfg) (line_numbers cfg)
  | Some Binary => warn (skipped_file file_path)
  | None => raise (FileNotFoundError file_path)
  end.

Definition process_path (path : string) (n : node) (cfg : config) : M unit :=
  match n with
  | File d =>
      match d with
      | Text content =>
          print_path path content (claude_xml cfg) (markdown cfg) (line_numbers cfg)
      | Binary => warn (skipped_file path)
      end
  | Dir _ =>
      let events :=
        if ignore_gitignore cfg then [] else gitignore_walk (as_posix path) [] n in
      for_each (warnings_of events) warn ;;
      let all_patterns := patterns_of events in
      for_each (files_in_order cfg all_patterns path n)
               (emit_file (files_below path n) cfg)
  end.

(** *** The command (lines 178-300) *)

Definition read_paths_from_stdin (stdin : option string) (use_null_separator : bool) : list string :=
  match stdin with
  | None => []
  | Some stdin_content =>
      let paths :=
        if use_null_separator then Str.split "000"%char stdin_content
        else Str.split_whitespace stdin_content in
      List.filter Str.nonempty paths
  end.

Definition path_exists (fs : string -> option node) (path : string) : bool :=
  match fs path with Some _ => true | None => false end.

(** The body of [cli]. *)
Definition cli (fs : string -> option node) (paths : list string)
    (stdin : option string) (null : bool) (cfg : config) : M unit :=
  set_global_index 1 ;;
  let stdin_paths := read_paths_from_stdin stdin null in
  let all_paths := paths ++ stdin_paths in
  when (claude_xml cfg) (writer "<documents>") ;;
  for_each all_paths
    (fun path =>
       match fs path with
       | None => raise (BadArgumentUsage ("Path does not exist: " +:+ path))
       | Some n => process_path path n cfg
       end) ;;
  when (claude_xml cfg) (writer "</documents>").

(** The command as click runs it: the [paths] arguments are declared
    [click.Path(exists=True)], so they are checked before the body starts. *)
Definition cli_command (fs : string -> option node) (paths : list string)
    (stdin : option string) (null : bool) (cfg : config) : M unit :=
  match List.find (fun p => negb (path_exists fs p)) paths with
  | Some p => raise (BadParameter p)
  | None => cli fs paths stdin null cfg
  end.

End Program.

(* ------------------------------------------------------------------------- *)
(** ** An executable instance of the third-party functions *)

Module Glob.

(** Shell-style patterns over one name: [*], [?], bracket classes with
    ranges and negation, and literal characters. *)
Inductive tok :=
| Star
| Any
| Lit (c : ascii)
| Class (neg : bool) (items : list ascii).

Definition code (c : ascii) : N := N_of_ascii c.

Fixpoint in_items (items : list ascii) (c : ascii) : bool :=
  match items with
  | [] => false
  | lo :: rest =>
      match rest with
      | "-"%char :: hi :: rest' =>
          (N.leb (code lo) (code c) && N.leb (code c) (code hi)) || in_items rest' c
      | _ => Ascii.eqb lo c || in_items rest c
      end
  end.

Definition is_neg (caret : bool) (c : ascii) : bool :=
  Ascii.eqb c "!" || (caret && Ascii.eqb c "^").

(** Whether the text after an opening bracket holds the closing one: a
    leading negation mark and a bracket directly after it do not close. *)
Definition closes (caret : bool) (p : list ascii) : bool :=
  let p1 := match p with
            | c :: p' => if is_neg caret c then p' else p
            | [] => []
            end in
  let p2 := match p1 with
            | "]"%char :: p' => p'
            | _ => p1
            end in
  existsb (Ascii.eqb "]") p2.

Inductive mode :=
| Normal
| Escaped
| ClassStart
| ClassBody (neg first : bool) (acc : list ascii).

(** One pass over the pattern.  [esc]: a backslash quotes the next
    character; [caret]: a caret negates a class as an exclamation mark
    does. *)
Fixpoint tokens (esc caret : bool) (m : mode) (p : list ascii) : list tok :=
  match p with
  | [] => match m with Escaped => [Lit "\"] | _ => [] end
  | c :: p' =>
      match m with
      | Normal =>
          if Ascii.eqb c "*" then Star :: tokens esc caret Normal p'
          else if Ascii.eqb c "?" then Any :: tokens esc caret Normal p'
          else if Ascii.eqb c "[" && closes caret p' then tokens esc caret ClassStart p'
          else if esc && Ascii.eqb c "\" then tokens esc caret Escaped p'
          else Lit c :: tokens esc caret Normal p'
      | Escaped => Lit c :: tokens esc caret Normal p'
      | ClassStart =>
          if is_neg caret c then tokens esc caret (ClassBody true true []) p'
          else tokens esc caret (ClassBody false false [c]) p'
      | ClassBody neg first acc =>
          if Ascii.eqb c "]" && negb first
          then Class neg (List.rev acc) :: tokens esc caret Normal p'
          else tokens esc caret (ClassBody neg false (c :: acc)) p'
      end
  end.

Definition tok_ok (t : tok) (c : ascii) : bool :=
  match t with
  | Star | Any => true
  | Lit x => Ascii.eqb x c
  | Class neg items => xorb neg (in_items items c)
  end.

Fixpoint match_toks (ts : list tok) (s : list ascii) : bool :=
  match ts with
  | [] => match s with [] => true | _ => false end
  | Star :: ts' =>
      (fix star (s : list ascii) : bool :=
         match_toks ts' s ||
         match s with
         | [] => false
         | _ :: s' => star s'
         end) s
  | t :: ts' =>
      match s with
      | [] => false
      | c :: s' => tok_ok t c && match_toks ts' s'
      end
  end.

(** Modelled from the spec: the shell-style [fnmatch] of section 4.2
    (Python's [fnmatch] module is not part of the source). *)
Definition fnmatch (name pat : string) : bool :=
  match_toks (tokens false false Normal (list_ascii_of_string pat))
             (list_ascii_of_string name).

End Glob.

Module GitWildMatch.

Inductive seg :=
| DoubleStar
| Segment (ts : list Glob.tok).

Record rule := mkRule {
  include : bool;           (* [false] for a pattern with a leading [!] *)
  segs : list seg
}.

(** Runs of double-asterisk segments collapse to one. *)
Fixpoint collapse (l : list string) : list string :=
  match l with
  | [] => []
  | a :: l' =>
      match l' with
      | b :: _ => if String.eqb a "**" && String.eqb b "**" then collapse l' else a :: collapse l'
      | [] => [a]
      end
  end.

Definition to_seg (s : string) : seg :=
  if String.eqb s "**" then DoubleStar
  else Segment (Glob.tokens true true Glob.Normal (list_ascii_of_string s)).

(** The last segment of a pattern that ends in a slash becomes a
    double asterisk: such a pattern matches what lies below only. *)
Fixpoint close_dir (l : list string) : list string :=
  match l with
  | [] => []
  | [a] => [a]
  | a :: l' =>
      match l' with
      | [b] => if String.eqb b "" then [a; "**"] else [a; b]
      | _ => a :: close_dir l'
      end
  end.

(** A leading [!] marks a re-including pattern and is removed. *)
Definition strip_bang (line : string) : bool * string :=
  match line with
  | String c rest => if Ascii.eqb c "!" then (false, rest) else (true, line)
  | EmptyString => (true, line)
  end.

(** One pattern line: a comment, a lone slash and an empty line give no
    rule; a leading [!] makes a re-including rule; a leading slash anchors
    the pattern; a pattern of one segment matches at any depth. *)
Definition compile (line : string) : option rule :=
  if Str.startswith line "#" || String.eqb line "/" || String.eqb line "" then None
  else
    let '(inc, pattern) := strip_bang line in
    let pattern_segs := collapse (Str.split "/" pattern) in
    let pattern_segs :=
      match pattern_segs with
      | a :: rest =>
          if String.eqb a "" then rest
          else match rest with
               | [] => if String.eqb a "**" then pattern_segs else "**" :: pattern_segs
               | [b] => if String.eqb b "" && negb (String.eqb a "**")
                        then "**" :: pattern_segs else pattern_segs
               | _ => pattern_segs
               end
      | [] => []
      end in
    match pattern_segs with
    | [] => None
    | _ => Some (mkRule inc (List.map to_seg (close_dir pattern_segs)))
    end.

(** A path, as its parts, against the segments of a rule: a double asterisk
    stands for any number of leading or inner parts and, in last place, for
    at least one; once the segments are used up the rest of the path lies
    below the match. *)
Fixpoint match_segs (ss : list seg) (parts : list (list ascii)) : bool :=
  match ss with
  | [] => true
  | DoubleStar :: ss' =>
      match ss' with
      | [] => match parts with [] => false | _ => true end
      | _ =>
          (fix skip (parts : list (list ascii)) : bool :=
             match_segs ss' parts ||
             match parts with
             | [] => false
             | _ :: parts' => skip parts'
             end) parts
      end
  | Segment ts :: ss' =>
      match parts with
      | [] => false
      | c :: parts' => Glob.match_toks ts c && match_segs ss' parts'
      end
  end.

Definition parts_of (path : string) : list (list ascii) :=
  List.map list_ascii_of_string (List.filter Str.nonempty (Str.split "/" path)).

(** Modelled from the spec: the matcher of section 4.1 compiled from the
    collected pattern lines (pathspec's [PathSpec] and
    [GitWildMatchPattern] are not part of the source).  The last rule that
    matches a path decides, and a re-including rule decides that the path is
    not matched. *)
Definition match_file (lines : list string) (path : string) : bool :=
  fold_left
    (fun matched line =>
       match compile line with
       | Some r => if match_segs (segs r) (parts_of path) then include r else matched
       | None => matched
       end)
    lines false.

End GitWildMatch.

Module Posix.

(** Modelled from the spec: the forward-slash form of section 4.3 of a path
    string (pathlib's [Path] is not part of the source): empty and [.] parts
    are dropped, a leading slash is kept, and the empty path is [.]. *)
Definition as_posix (s : string) : string :=
  let parts :=
    List.filter (fun p => Str.nonempty p && negb (String.eqb p "."))
                (Str.split "/" s) in
  let root :=
    if Str.startswith s "//" && negb (Str.startswith s "///") then "//"
    else if Str.startswith s "/" then "/"
    else "" in
  match parts with
  | [] => if String.eqb root "" then "." else root
  | _ => root +:+ Str.join "/" parts
  end.

End Posix.

#[global] Instance Reference : Externals := {|
  fnmatch := Glob.fnmatch;
  match_file := GitWildMatch.match_file;
  as_posix := Posix.as_posix
|}.

(* ------------------------------------------------------------------------- *)
(** ** The specification's vocabulary *)

Section Vocabulary.
Context {E : Externals}.

(** The four filters of section 4.2, each as a test on one entry [name] of
    the directory at [rel]. *)
Definition hidden_ok (cfg : config) (name : string) : bool :=
  include_hidden cfg || negb (Str.startswith name ".").

Definition ignore_glob_ok (cfg : config) (name : string) : bool :=
  negb (existsb (fnmatch name) (ignore_patterns cfg)).

Definition gitignore_ok (rules : list string) (rel : rel_path) (name : string) : bool :=
  negb (match_file rules (path_str (path_div rel name))).

Definition extension_ok (cfg : config) (name : string) : bool :=
  match extensions cfg with
  | [] => true
  | exts => existsb (Str.endswith name) exts
  end.

(** A directory is descended into when it passes the first three filters,
    the second one unless ignore-files-only is set. *)
Definition dir_passes (cfg : config) (rules : list string) (rel : rel_path) (d : string) : bool :=
  hidden_ok cfg d && (ignore_files_only cfg || ignore_glob_ok cfg d) && gitignore_ok rules rel d.

(** A file is kept when it passes the four filters. *)
Definition file_passes (cfg : config) (rules : list string) (rel : rel_path) (f : string) : bool :=
  hidden_ok cfg f && ignore_glob_ok cfg f && gitignore_ok rules rel f && extension_ok cfg f.

(** [survives cfg rules rel n parts]: below the directory [n], found at
    [rel] under the traversal root, [parts] names a file that passes the four
    filters and lies in directories that were all descended into. *)
Inductive survives (cfg : config) (rules : list string) :
    rel_path -> node -> list string -> Prop :=
| survives_file rel es f d :
    In (f, File d) es ->
    file_passes cfg rules rel f = true ->
    survives cfg rules rel (Dir es) [f]
| survives_below rel es d es' parts :
    In (d, Dir es') es ->
    dir_passes cfg rules rel d = true ->
    survives cfg rules (path_div rel d) (Dir es') parts ->
    survives cfg rules rel (Dir es) (d :: parts).

End Vocabulary.

(** The path string the walk composes for the parts below [root]. *)
Definition full_path (root : string) (parts : list string) : string :=
  fold_left os_path_join parts root.

(** Two trees that differ only in the order in which directories list their
    entries. *)
Inductive relisted : node -> node -> Prop :=
| relisted_refl n : relisted n n
| relisted_trans a b c : relisted a b -> relisted b c -> relisted a c
| relisted_swap x y es : relisted (Dir (x :: y :: es)) (Dir (y :: x :: es))
| relisted_skip x es es' :
    relisted (Dir es) (Dir es') -> relisted (Dir (x :: es)) (Dir (x :: es'))
| relisted_child name c c' es :
    relisted c c' -> relisted (Dir ((name, c) :: es)) (Dir ((name, c') :: es)).

(** [dir_at n parts es]: following [parts] down from [n] leads to a directory
    that lists [es]. *)
Inductive dir_at : node -> list string -> list (string * node) -> Prop :=
| dir_at_here es : dir_at (Dir es) [] es
| dir_at_below es name child parts es' :
    In (name, child) es ->
    dir_at child parts es' ->
    dir_at (Dir es) (name :: parts) es'.

(** A line of a [.gitignore] that holds a pattern: not blank, not a comment. *)
Definition pattern_line (line : string) : bool :=
  Str.nonempty (Str.strip line) && negb (Str.startswith (Str.strip line) "#").

(** [n] backticks. *)
Definition ticks (n : nat) : string := Str.repeat "`" n.

(** The number of backticks a string starts with, and the longest run of
    backticks in a string. *)
Fixpoint run_length (s : string) : nat :=
  match s with
  | String c s' => if Ascii.eqb c "`" then S (run_length s') else 0
  | EmptyString => 0
  end.

Fixpoint longest_run (s : string) : nat :=
  match s with
  | EmptyString => 0
  | String _ s' => Nat.max (run_length s) (longest_run s')
  end.

Section Contributions.
Context {E : Externals}.

(** What one entry of the directory at [rel] adds to [files_to_process]. *)
Definition entry_out (cfg : config) (rules : list string) (root : string)
    (rel : rel_path) (e : string * node) : list string :=
  match snd e with
  | File _ =>
      if file_passes cfg rules rel (fst e) then [os_path_join root (fst e)] else []
  | Dir _ =>
      if dir_passes cfg rules rel (fst e)
      then walk cfg rules (os_path_join root (fst e)) (path_div rel (fst e)) (snd e)
      else []
  end.

End Contributions.

(** The configuration with another extension tuple. *)
Definition with_extensions (cfg : config) (exts : list string) : config :=
  mkConfig exts (include_hidden cfg) (ignore_files_only cfg) (ignore_gitignore cfg)
           (ignore_patterns cfg) (claude_xml cfg) (markdown cfg) (line_numbers cfg).

(* ------------------------------------------------------------------------- *)
(** ** Sample inputs *)

Module Sample.

Definition plain : config := mkConfig [] false false false [] false false false.
Definition xml : config := mkConfig [] false false false [] true false false.

(** A directory that lists [b.txt] before [a.txt], and the same directory
    listed the other way round. *)
Definition listing : node :=
  Dir [ ("b.txt", File (Text "B")); ("a.txt", File (Text "A"));
        ("sub", Dir [ ("c.txt", File (Text "C")) ]) ].

Definition listing' : node :=
  Dir [ ("a.txt", File (Text "A")); ("b.txt", File (Text "B"));
        ("sub", Dir [ ("c.txt", File (Text "C")) ]) ].

(** Three files of which the second does not decode. *)
Definition three : node :=
  Dir [ ("a.txt", File (Text "A")); ("b.bin", File Binary); ("c.txt", File (Text "C")) ].

(** A configuration under which every filter would drop [.env.log]. *)
Definition strict : config :=
  mkConfig ["py"] false false false ["*.log"] false false false.

Definition fs (p : string) : option node :=
  if String.eqb p "d" then Some three
  else if String.eqb p "a.txt" then Some (File (Text "A"))
  else if String.eqb p "b.txt" then Some (File (Text "B"))
  else if String.eqb p ".env.log" then Some (File (Text "KEY"))
  else None.

(** A [.gitignore] below the root that names a directory, next to a
    directory of the same name at the root. *)
Definition anchoring : node :=
  Dir [ ("build", Dir [ ("keep.o", File (Text "K")) ]);
        ("sub",
         Dir [ (".gitignore", File (Text ("# generated" +:+ newline +:+ "build/" +:+ newline)));
               ("build", Dir [ ("out.o", File (Text "O"));
                               ("deep", Dir [ ("x.o", File (Text "X")) ]) ]);
               ("src.c", File (Text "S")) ]) ].

(** A pattern followed by its negation, in the [.gitignore] of the root
    and in the [.gitignore] of a subdirectory. *)
Definition rules_text : string := "*.log" +:+ newline +:+ "!keep.log" +:+ newline.

Definition negation_root : node :=
  Dir [ (".gitignore", File (Text rules_text));
        ("keep.log", File (Text "K"));
        ("main.py", File (Text "M"));
        ("other.log", File (Text "O")) ].

Definition negation_sub : node :=
  Dir [ ("main.py", File (Text "M"));
        ("sub",
         Dir [ (".gitignore", File (Text rules_text));
               ("keep.log", File (Text "K"));
               ("other.log", File (Text "O")) ]) ].

Definition fs_sub (p : string) : option node :=
  if String.eqb p "r" then Some negation_sub else None.

Definition st0 : state := mkState [] [] 1.

(** The state a previous invocation in the same process may leave. *)
Definition st7 : state := mkState [] [] 7.

End Sample.

(* ------------------------------------------------------------------------- *)
(** ** What a run writes *)

Section Rendering.
Context {E : Externals}.

(** The lines of one rendered file in each format. *)
Definition default_block (path content : string) (line_numbers : bool) : list string :=
  [ path; "---"; numbered line_numbers content; ""; "---" ].

Definition xml_block (index : nat) (path content : string) (line_numbers : bool) : list string :=
  [ "<document index=" +:+ dquote +:+ Str.of_nat index +:+ dquote +:+ ">";
    "<source>" +:+ path +:+ "</source>";
    "<document_content>";
    numbered line_numbers content;
    "</document_content>";
    "</document>" ].

Definition markdown_block (path content : string) (line_numbers : bool) : list string :=
  [ path;
    fence content +:+ Str.dict_get EXT_TO_LANG (List.last (Str.split "." path) "") "";
    numbered line_numbers content;
    fence content ].

Definition block (cfg : config) (index : nat) (path content : string) : list string :=
  if claude_xml cfg then xml_block index (as_posix path) content (line_numbers cfg)
  else if markdown cfg then markdown_block (as_posix path) content (line_numbers cfg)
  else default_block (as_posix path) content (line_numbers cfg).

(** The blocks of a sequence of files, numbered from [index] on. *)
Fixpoint blocks (cfg : config) (index : nat) (texts : list (string * string)) : list string :=
  match texts with
  | [] => []
  | (path, content) :: rest => block cfg index path content ++ blocks cfg (S index) rest
  end.

(** The counter after [count] files were rendered. *)
Definition advance (cfg : config) (index count : nat) : nat :=
  if claude_xml cfg then index + count else index.

(** Of a list of paths, those that decode with their contents, and those
    that do not. *)
Definition texts (table : list (string * data)) (files : list string) : list (string * string) :=
  flat_map
    (fun p => match open_read table p with
              | Some (Text content) => [(p, content)]
              | _ => []
              end)
    files.

Definition binaries (table : list (string * data)) (files : list string) : list string :=
  List.filter
    (fun p => match open_read table p with
              | Some Binary => true
              | _ => false
              end)
    files.

(** The events of the first walk over the target [path]. *)
Definition path_events (cfg : config) (path : string) (n : node) : list event :=
  if ignore_gitignore cfg then [] else gitignore_walk (as_posix path) [] n.

(** The files one target hands to the renderer, and the warnings it echoes. *)
Definition path_texts (cfg : config) (path : string) (n : node) : list (string * string) :=
  match n with
  | File (Text content) => [(path, content)]
  | File Binary => []
  | Dir _ =>
      texts (files_below path n)
            (files_in_order cfg (patterns_of (path_events cfg path n)) path n)
  end.

Definition path_warnings (cfg : config) (path : string) (n : node) : list string :=
  match n with
  | File (Text _) => []
  | File Binary => [skipped_file path]
  | Dir _ =>
      warnings_of (path_events cfg path n) ++
      List.map skipped_file
        (binaries (files_below path n)
                  (files_in_order cfg (patterns_of (path_events cfg path n)) path n))
  end.

(** The same for a list of targets, each resolved in the filesystem. *)
Definition run_texts (fs : string -> option node) (cfg : config) (paths : list string)
    : list (string * string) :=
  flat_map (fun p => match fs p with Some n => path_texts cfg p n | None => [] end) paths.

Definition run_warnings (fs : string -> option node) (cfg : config) (paths : list string)
    : list string :=
  flat_map (fun p => match fs p with Some n => path_warnings cfg p n | None => [] end) paths.

(** The body of the loop over [all_paths] (lines 282-295). *)
Definition visit (fs : string -> option node) (cfg : config) (path : string) : M unit :=
  match fs path with
  | None => raise (BadArgumentUsage ("Path does not exist: " +:+ path))
  | Some n => process_path path n cfg
  end.

Definition header (cfg : config) : list string :=
  if claude_xml cfg then ["<documents>"] else [].

Definition footer (cfg : config) : list string :=
  if claude_xml cfg then ["</documents>"] else [].

End Rendering.

(* ------------------------------------------------------------------------- *)
(** ** Further vocabulary *)

(** No character of [s] is accepted by [bad]. *)
Fixpoint no_char (bad : ascii -> bool) (s : string) : bool :=
  match s with
  | EmptyString => true
  | String c s' => negb (bad c) && no_char bad s'
  end.

(** The text of a stream on which every path is followed by the character
    [c], as [find -print0] writes it with the NUL character. *)
Fixpoint terminated (c : ascii) (paths : list string) : string :=
  match paths with
  | [] => EmptyString
  | p :: paths' => p +:+ String c (terminated c paths')
  end.

(** The language tag [print_as_markdown] looks up for a path (line 71). *)
Definition lang_of (path : string) : string :=
  Str.dict_get EXT_TO_LANG (List.last (Str.split "." path) "") "".

(** The configuration with other ignore patterns, with another setting for
    hidden entries, and with other format flags. *)
Definition with_ignore_patterns (cfg : config) (pats : list string) : config :=
  mkConfig (extensions cfg) (include_hidden cfg) (ignore_files_only cfg)
           (ignore_gitignore cfg) pats (claude_xml cfg) (markdown cfg) (line_numbers cfg).

Definition with_hidden (cfg : config) (hidden : bool) : config :=
  mkConfig (extensions cfg) hidden (ignore_files_only cfg) (ignore_gitignore cfg)
           (ignore_patterns cfg) (claude_xml cfg) (markdown cfg) (line_numbers cfg).

Definition with_formats (cfg : config) (cxml md : bool) : config :=
  mkConfig (extensions cfg) (include_hidden cfg) (ignore_files_only cfg)
           (ignore_gitignore cfg) (ignore_patterns cfg) cxml md (line_numbers cfg).

(* ------------------------------------------------------------------------- *)
(** ** Properties *)

(** *** Backtick runs and the fence loop *)

Lemma prefix_ticks (n : nat) (s : string) :
  String.prefix (ticks n) s = (n <=? run_length s).
Proof.
  revert s. induction n as [|n IH]; intros s.
  - destruct s; reflexivity.
  - destruct s as [|c s]; [reflexivity|].
    cbn [ticks Str.repeat String.prefix run_length].
    destruct (ascii_dec "`" c) as [<-|Hne].
    + rewrite Ascii.eqb_refl. apply IH.
    + destruct (Ascii.eqb_spec c "`") as [->|_]; [congruence|reflexivity].
Qed.

Lemma contains_ticks (n : nat) (s : string) :
  Str.contains (ticks n) s = (n <=? longest_run s).
Proof.
  induction s as [|c s IH].
  - cbn [Str.contains longest_run]. rewrite prefix_ticks, orb_false_r. reflexivity.
  - cbn [Str.contains longest_run]. rewrite prefix_ticks, IH.
    destruct (Nat.leb_spec n (run_length (String c s)));
      destruct (Nat.leb_spec n (longest_run s));
      destruct (Nat.leb_spec n (Nat.max (run_length (String c s)) (longest_run s)));
      simpl; try reflexivity; lia.
Qed.

Lemma snoc_ticks (n : nat) : Str.snoc (ticks n) "`" = ticks (S n).
Proof.
  induction n as [|n IH]; [reflexivity|].
  change (ticks (S n)) with (String "`" (ticks n)).
  change (Str.snoc (String "`" (ticks n)) "`") with (String "`" (Str.snoc (ticks n) "`")).
  now rewrite IH.
Qed.

Lemma length_ticks (n : nat) : String.length (ticks n) = n.
Proof. induction n; simpl; auto. Qed.

Lemma run_length_le (s : string) : run_length s <= String.length s.
Proof.
  induction s as [|c s IH]; simpl; [lia|].
  destruct (Ascii.eqb c "`"); lia.
Qed.

Lemma longest_run_le (s : string) : longest_run s <= String.length s.
Proof.
  induction s as [|c s IH]; [simpl; lia|].
  cbn [longest_run]. pose proof (run_length_le (String c s)).
  cbn [String.length] in *. lia.
Qed.

(** From [n] backticks the loop appends [d] more, where [n + d] is the first
    length above the longest run that is at least [n]. *)
Lemma fence_loop_from (content : string) (d n fuel : nat) :
  n + d = Nat.max n (S (longest_run content)) ->
  d < fuel ->
  fence_loop fuel content (ticks n) = Some (ticks (n + d)).
Proof.
  revert n fuel. induction d as [|d IH]; intros n fuel Hd Hfuel.
  - destruct fuel as [|fuel]; [lia|].
    cbn [fence_loop]. rewrite contains_ticks.
    destruct (Nat.leb_spec n (longest_run content)); [lia|].
    now rewrite Nat.add_0_r.
  - destruct fuel as [|fuel]; [lia|].
    cbn [fence_loop]. rewrite contains_ticks.
    destruct (Nat.leb_spec n (longest_run content)); [|lia].
    rewrite snoc_ticks, (IH (S n) fuel) by lia.
    f_equal. f_equal. lia.
Qed.

Lemma fence_eq (content : string) :
  fence content = ticks (Nat.max 3 (S (longest_run content))).
Proof.
  unfold fence. change "```" with (ticks 3).
  pose proof (longest_run_le content) as Hle.
  assert (H1 : 3 + (Nat.max 3 (S (longest_run content)) - 3)
               = Nat.max 3 (S (longest_run content))) by lia.
  assert (H2 : Nat.max 3 (S (longest_run content)) - 3 < S (String.length content)) by lia.
  rewrite (fence_loop_from content _ 3 _ H1 H2).
  cbn [default]. now rewrite H1.
Qed.

Lemma print_as_markdown_out (path content : string) (line_numbers : bool) (st : state) :
  print_as_markdown path content line_numbers st =
  (Ok tt,
   mkState
     (out st ++
      [ path;
        fence content +:+ Str.dict_get EXT_TO_LANG (List.last (Str.split "." path) "") "";
        numbered line_numbers content;
        fence content ])
     (err st) (global_index st)).
Proof.
  unfold print_as_markdown, bind, writer. cbn [out err global_index].
  now rewrite <- !app_assoc.
Qed.

(** C9: the Markdown fence is made of backticks, three at least, and is
    extended to one more than the longest run of backticks in the content
    whenever that run has three or more; it is therefore longer than every
    run in the content and does not occur in it.  A content whose longest run
    has three backticks is fenced with four.  The fence opens and closes the
    block that [print_as_markdown] writes. *)
Theorem markdown_fence_one_longer (content : string) :
  fence content = ticks (Nat.max 3 (S (longest_run content)))
  /\ longest_run content < String.length (fence content)
  /\ Str.contains (fence content) content = false
  /\ (if 3 <=? longest_run content
      then fence content = ticks (S (longest_run content))
      else fence content = "```")
  /\ (if longest_run content =? 3 then fence content = "````" else True)
  /\ forall (path : string) (line_numbers : bool) (st : state),
       out (snd (print_as_markdown path content line_numbers st)) =
       out st ++
       [ path;
         fence content +:+ Str.dict_get EXT_TO_LANG (List.last (Str.split "." path) "") "";
         numbered line_numbers content;
         fence content ].
Proof.
  pose proof (fence_eq content) as Hf.
  split; [exact Hf|].
  split; [rewrite Hf, length_ticks; lia|].
  split.
  { rewrite Hf, contains_ticks. apply Nat.leb_gt. lia. }
  split.
  { destruct (Nat.leb_spec 3 (longest_run content)); rewrite Hf.
    - f_equal. lia.
    - replace (Nat.max 3 (S (longest_run content))) with 3 by lia. reflexivity. }
  split.
  { destruct (Nat.eqb_spec (longest_run content) 3) as [H3|_]; [|exact I].
    rewrite Hf, H3. reflexivity. }
  intros path line_numbers st. now rewrite print_as_markdown_out.
Qed.

(** C10: the fence loop terminates on every content.  Started from three
    backticks it appends [k] backticks for some [k] that is at most the length
    of the content: each of the [k] markers tried before occurs in the
    content, the marker reached does not, and every amount of fuel above [k]
    returns that marker. *)
Theorem fence_loop_terminates (content : string) :
  exists k : nat,
    k <= String.length content
    /\ fence_loop (S k) content "```" = Some (ticks (3 + k))
    /\ Str.contains (ticks (3 + k)) content = false
    /\ (forall j : nat, j < k -> Str.contains (ticks (3 + j)) content = true)
    /\ (forall fuel : nat, k < fuel -> fence_loop fuel content "```" = Some (ticks (3 + k))).
Proof.
  pose proof (longest_run_le content) as Hle.
  exists (Nat.max 3 (S (longest_run content)) - 3).
  assert (H1 : 3 + (Nat.max 3 (S (longest_run content)) - 3)
               = Nat.max 3 (S (longest_run content))) by lia.
  split; [lia|].
  split; [apply (fence_loop_from content _ 3); [exact H1|lia]|].
  split; [rewrite contains_ticks; apply Nat.leb_gt; lia|].
  split.
  - intros j Hj. rewrite contains_ticks. apply Nat.leb_le. lia.
  - intros fuel Hfuel. apply (fence_loop_from content _ 3); [exact H1|exact Hfuel].
Qed.

(** *** The loop body as one test per entry *)

Lemma filter_true {A} (l : list A) : List.filter (fun _ => true) l = l.
Proof. induction l; simpl; congruence. Qed.

Lemma filter_twice {A} (f g : A -> bool) (l : list A) :
  List.filter f (List.filter g l) = List.filter (fun x => g x && f x) l.
Proof.
  induction l as [|a l IH]; [reflexivity|].
  simpl. destruct (g a); simpl; [destruct (f a)|]; congruence.
Qed.

Lemma filter_when {A} (b : bool) (f : A -> bool) (l : list A) :
  (if b then List.filter f l else l) = List.filter (fun x => negb b || f x) l.
Proof. destruct b; simpl; [reflexivity|now rewrite filter_true]. Qed.

Lemma filter_unless {A} (b : bool) (f : A -> bool) (l : list A) :
  (if b then l else List.filter f l) = List.filter (fun x => b || f x) l.
Proof. destruct b; simpl; [now rewrite filter_true|reflexivity]. Qed.

Lemma path_in_In (p : list string) (paths : list (list string)) :
  path_in p paths = true <-> In p paths.
Proof.
  unfold path_in. rewrite existsb_exists. split.
  - intros (q & Hq & Heq). apply bool_decide_eq_true in Heq. now subst.
  - intros Hin. exists p. split; [exact Hin|]. now apply bool_decide_eq_true.
Qed.

Section Listing.
Context {E : Externals}.

(** Whether a remaining name is in [ignored_paths] is the matcher's verdict
    on its own path. *)
Lemma ignored_paths_verdict (rules : list string) (rel : rel_path)
    (names : list string) (name : string) :
  In name names ->
  path_in (path_div rel name)
    (List.filter (fun p => match_file rules (path_str p))
                 (List.map (path_div rel) names))
  = match_file rules (path_str (path_div rel name)).
Proof.
  intros Hin.
  destruct (match_file rules (path_str (path_div rel name))) eqn:Hm.
  - apply path_in_In, filter_In. split; [|exact Hm].
    apply in_map_iff. now exists name.
  - apply not_true_is_false. intros Hp.
    apply path_in_In, filter_In in Hp. destruct Hp as [_ Hp]. congruence.
Qed.

Lemma truthy_false_existsb {A} (f : string -> A -> bool) (l : list A) (x : string) :
  truthy l = false -> existsb (f x) l = false.
Proof. destruct l; [reflexivity|discriminate]. Qed.

Lemma filter_listing_dirs (cfg : config) (rules : list string) (rel : rel_path)
    (dirs files : list string) :
  fst (filter_listing cfg rules rel dirs files) =
  List.filter (dir_passes cfg rules rel) dirs.
Proof.
  unfold filter_listing. cbv zeta. cbn [fst].
  rewrite !filter_when, !filter_unless.
  match goal with
  | |- List.filter _ ?dirs2 = _ =>
      rewrite (filter_ext_in _ (gitignore_ok rules rel) dirs2)
  end.
  2:{ intros d Hd. unfold gitignore_ok. f_equal.
      apply ignored_paths_verdict. apply in_or_app. now left. }
  rewrite !filter_twice. apply filter_ext. intros d.
  unfold dir_passes, hidden_ok, ignore_glob_ok.
  destruct (include_hidden cfg), (ignore_files_only cfg),
    (truthy (ignore_patterns cfg)) eqn:Ht; cbn; try reflexivity;
    try (rewrite (truthy_false_existsb fnmatch _ d Ht)); cbn;
    try reflexivity; now rewrite ?andb_true_r, ?andb_assoc.
Qed.

Lemma filter_listing_files (cfg : config) (rules : list string) (rel : rel_path)
    (dirs files : list string) :
  snd (filter_listing cfg rules rel dirs files) =
  List.filter (file_passes cfg rules rel) files.
Proof.
  unfold filter_listing. cbv zeta. cbn [snd].
  rewrite !filter_when, !filter_unless.
  match goal with
  | |- List.filter _ (List.filter _ ?files2) = _ =>
      rewrite (filter_ext_in _ (gitignore_ok rules rel) files2)
  end.
  2:{ intros f Hf. unfold gitignore_ok. f_equal.
      apply ignored_paths_verdict. apply in_or_app. now right. }
  rewrite !filter_twice. apply filter_ext. intros f.
  unfold file_passes, hidden_ok, ignore_glob_ok, extension_ok, Str.endswith_any.
  destruct (include_hidden cfg), (extensions cfg) as [|e exts],
    (truthy (ignore_patterns cfg)) eqn:Ht; cbn [negb orb andb truthy];
    try (rewrite (truthy_false_existsb fnmatch _ f Ht)); cbn [negb orb andb];
    now rewrite ?andb_true_r, ?andb_assoc.
Qed.

End Listing.

(** *** The walk, entry by entry *)

Lemma node_rect' (P : node -> Prop) :
  (forall d, P (File d)) ->
  (forall es, Forall (fun e => P (snd e)) es -> P (Dir es)) ->
  forall n, P n.
Proof.
  intros Hfile Hdir. fix IH 1. intros [d|es].
  - apply Hfile.
  - apply Hdir. induction es as [|[name child] es IHes]; constructor.
    + apply IH.
    + exact IHes.
Qed.

Lemma flat_map_app_perm {A B} (f g : A -> list B) (l : list A) :
  flat_map f l ++ flat_map g l ≡ₚ flat_map (fun x => f x ++ g x) l.
Proof.
  induction l as [|a l IH]; [reflexivity|].
  cbn [flat_map]. rewrite <- IH, <- !app_assoc.
  apply Permutation_app_head.
  rewrite !app_assoc. apply Permutation_app_tail, Permutation_app_comm.
Qed.

Lemma flat_map_ext_on {A B} (f g : A -> list B) (l : list A) :
  (forall a, In a l -> f a = g a) -> flat_map f l = flat_map g l.
Proof.
  induction l as [|a l IH]; intros H; [reflexivity|].
  cbn [flat_map]. rewrite (H a) by now left.
  rewrite IH; [reflexivity|]. intros b Hb. apply H. now right.
Qed.

Lemma mem_In (x : string) (l : list string) : mem x l = true <-> In x l.
Proof.
  unfold mem. rewrite existsb_exists. split.
  - intros (y & Hy & Heq). apply String.eqb_eq in Heq. now subst.
  - intros Hin. exists x. split; [exact Hin|apply String.eqb_refl].
Qed.

Lemma in_dir_names (es : list (string * node)) (e : string * node) :
  In e es -> is_dir (snd e) = true -> In (fst e) (dir_names es).
Proof.
  intros Hin Hd. unfold dir_names. apply in_map, filter_In. now split.
Qed.

Lemma file_names_flat_map {B} (f : string -> bool) (g : string -> B)
    (es : list (string * node)) :
  List.map g (List.filter f (file_names es)) =
  flat_map (fun e => match snd e with
                     | File _ => if f (fst e) then [g (fst e)] else []
                     | Dir _ => []
                     end) es.
Proof.
  unfold file_names. induction es as [|[name [d|es']] es IH]; [reflexivity| |exact IH].
  cbn [List.filter is_file snd List.map fst flat_map].
  destruct (f name); cbn [List.map app]; now rewrite IH.
Qed.

Section Walk.
Context {E : Externals}.
Variables (cfg : config) (rules : list string).

Lemma walk_Dir (root : string) (rel : rel_path) (es : list (string * node)) :
  walk cfg rules root rel (Dir es) =
  List.map (os_path_join root) (List.filter (file_passes cfg rules rel) (file_names es)) ++
  flat_map
    (fun e =>
       if is_dir (snd e) && mem (fst e) (List.filter (dir_passes cfg rules rel) (dir_names es))
       then walk cfg rules (os_path_join root (fst e)) (path_div rel (fst e)) (snd e)
       else [])
    es.
Proof.
  cbn [walk].
  rewrite (surjective_pairing (filter_listing cfg rules rel (dir_names es) (file_names es))).
  now rewrite filter_listing_dirs, filter_listing_files.
Qed.

Lemma walk_entries (root : string) (rel : rel_path) (es : list (string * node)) :
  walk cfg rules root rel (Dir es) ≡ₚ flat_map (entry_out cfg rules root rel) es.
Proof.
  rewrite walk_Dir, file_names_flat_map, flat_map_app_perm.
  erewrite flat_map_ext_on; [reflexivity|].
  intros [name child] Hin. unfold entry_out. cbn [fst snd].
  destruct child as [d|es'].
  - cbn [is_dir andb]. now rewrite app_nil_r.
  - cbn [is_dir andb app].
    destruct (dir_passes cfg rules rel name) eqn:Hp.
    + replace (mem name _) with true; [reflexivity|].
      symmetry. apply mem_In, filter_In. split; [|exact Hp].
      now apply (in_dir_names es (name, Dir es')).
    + replace (mem name _) with false; [reflexivity|].
      symmetry. apply not_true_is_false. intros Hm.
      apply mem_In, filter_In in Hm. destruct Hm as [_ Hm]. congruence.
Qed.

Lemma walk_In_entries (root : string) (rel : rel_path) (es : list (string * node)) (s : string) :
  In s (walk cfg rules root rel (Dir es)) <->
  exists e, In e es /\ In s (entry_out cfg rules root rel e).
Proof.
  rewrite <- in_flat_map. split; apply Permutation_in.
  - apply walk_entries.
  - symmetry. apply walk_entries.
Qed.

(** The walk collects exactly the surviving files. *)
Lemma walk_In (n : node) :
  forall (root : string) (rel : rel_path) (s : string),
    In s (walk cfg rules root rel n) <->
    exists parts, survives cfg rules rel n parts /\ s = full_path root parts.
Proof.
  induction n as [d|es IH] using node_rect'; intros root rel s.
  - cbn [walk]. split; [intros []|]. intros (parts & Hs & _). inversion Hs.
  - rewrite walk_In_entries. rewrite Stdlib.Lists.List.Forall_forall in IH. split.
    + intros ([name child] & Hin & Hs). unfold entry_out in Hs. cbn [fst snd] in Hs.
      destruct child as [d|es'].
      * destruct (file_passes cfg rules rel name) eqn:Hp; [|destruct Hs].
        destruct Hs as [<-|[]]. exists [name]. split; [|reflexivity].
        now apply (survives_file _ _ _ _ _ d).
      * destruct (dir_passes cfg rules rel name) eqn:Hp; [|destruct Hs].
        apply (IH _ Hin) in Hs. destruct Hs as (parts & Hsv & ->).
        exists (name :: parts). split; [|reflexivity].
        now apply (survives_below _ _ _ _ _ es').
    + intros (parts & Hsv & ->). inversion Hsv; subst.
      * exists (f, File d). split; [assumption|].
        unfold entry_out. cbn [fst snd].
        match goal with H : file_passes _ _ _ _ = true |- _ => rewrite H end.
        now left.
      * exists (d, Dir es'). split; [assumption|].
        unfold entry_out. cbn [fst snd].
        match goal with H : dir_passes _ _ _ _ = true |- _ => rewrite H end.
        match goal with H : In (d, Dir es') es |- _ => apply (IH _ H) end.
        now exists parts0.
Qed.

End Walk.

(** *** Listing order *)

Lemma relisted_is_dir (a b : node) : relisted a b -> is_dir a = is_dir b.
Proof. induction 1; try reflexivity. congruence. Qed.

Section Order.
Context {E : Externals}.
Variables (cfg : config) (rules : list string).

Lemma entry_out_relisted (root : string) (rel : rel_path) (name : string) (c c' : node) :
  is_dir c = is_dir c' ->
  (forall root rel, walk cfg rules root rel c ≡ₚ walk cfg rules root rel c') ->
  entry_out cfg rules root rel (name, c) ≡ₚ entry_out cfg rules root rel (name, c').
Proof.
  intros Hk Hw. unfold entry_out. cbn [fst snd].
  destruct c as [d|es], c' as [d'|es']; try discriminate Hk.
  - reflexivity.
  - destruct (dir_passes cfg rules rel name); [apply Hw|reflexivity].
Qed.

Lemma walk_relisted (n n' : node) :
  relisted n n' ->
  forall (root : string) (rel : rel_path),
    walk cfg rules root rel n ≡ₚ walk cfg rules root rel n'.
Proof.
  induction 1 as [n|a b c _ IH1 _ IH2|x y es|x es es' _ IH|name c c' es Hc IH];
    intros root rel.
  - reflexivity.
  - now rewrite IH1.
  - rewrite !walk_entries. cbn [flat_map]. rewrite !app_assoc.
    apply Permutation_app_tail, Permutation_app_comm.
  - rewrite (walk_entries cfg rules root rel (x :: es)),
            (walk_entries cfg rules root rel (x :: es')).
    cbn [flat_map]. apply Permutation_app_head.
    rewrite <- !walk_entries. apply IH.
  - rewrite !walk_entries. cbn [flat_map]. apply Permutation_app_tail.
    apply entry_out_relisted; [now apply relisted_is_dir|exact IH].
Qed.

End Order.

Lemma sorted_perm (l : list string) : sorted l ≡ₚ l.
Proof. apply merge_sort_Permutation. Qed.

Lemma sorted_strongly (l : list string) : StronglySorted String.le (sorted l).
Proof. apply (StronglySorted_merge_sort String.le). Qed.

Lemma sorted_unique (l l' : list string) : l ≡ₚ l' -> sorted l = sorted l'.
Proof.
  intros Hp. apply (StronglySorted_unique String.le); try apply sorted_strongly.
  now rewrite !sorted_perm.
Qed.

Lemma sorted_In (l : list string) (s : string) : In s (sorted l) <-> In s l.
Proof.
  split; apply Permutation_in; [apply sorted_perm|symmetry; apply sorted_perm].
Qed.

(** C1: the walker's output for a directory tree.  Its members are exactly
    the files that pass the hidden, ignore-glob, gitignore and extension
    filters and lie in directories that passed the filters that apply to
    directories; it is the sorted arrangement, by string order of the full
    paths, of the files the walk collected; and a tree that differs only in
    the order in which directories list their entries gives the same
    output. *)
Theorem walker_output {E : Externals} (cfg : config) (rules : list string)
    (path : string) (n n' : node) (Hrelisted : relisted n n') :
  (forall s : string,
      In s (files_in_order cfg rules path n) <->
      exists parts, survives cfg rules [] n parts /\ s = full_path path parts)
  /\ StronglySorted String.le (files_in_order cfg rules path n)
  /\ files_in_order cfg rules path n ≡ₚ walk cfg rules path [] n
  /\ files_in_order cfg rules path n' = files_in_order cfg rules path n.
Proof.
  unfold files_in_order. split; [|split; [|split]].
  - intros s. rewrite sorted_In. apply walk_In.
  - apply sorted_strongly.
  - apply sorted_perm.
  - apply sorted_unique. symmetry. now apply walk_relisted.
Qed.

Lemma walker_output_witness :
  relisted Sample.listing Sample.listing'
  /\ files_in_order Sample.plain [] "d" Sample.listing'
     = files_in_order Sample.plain [] "d" Sample.listing.
Proof.
  split; [apply relisted_swap|].
  apply (walker_output Sample.plain [] "d" Sample.listing Sample.listing').
  apply relisted_swap.
Defined.

Example walker_output_sample :
  files_in_order Sample.plain [] "d" Sample.listing = ["d/a.txt"; "d/b.txt"; "d/sub/c.txt"].
Proof. vm_compute. reflexivity. Qed.

(** *** The extension filter *)

Lemma endswith_spec (s suf : string) :
  Str.endswith s suf = true <-> exists p, s = p +:+ suf.
Proof.
  induction s as [|c s IH]; cbn [Str.endswith].
  - rewrite orb_false_r, String.eqb_eq. split.
    + intros <-. now exists "".
    + intros ([|c p] & Hp); [exact Hp|discriminate Hp].
  - rewrite orb_true_iff, String.eqb_eq, IH. split.
    + intros [<-|(p & ->)]; [now exists ""|now exists (String c p)].
    + intros ([|c' p] & Hp); [now left|].
      right. exists p. now injection Hp.
Qed.

Section Extensions.
Context {E : Externals}.
Variables (cfg : config) (exts : list string) (rules : list string).

Lemma extension_ok_spec (f : string) :
  extension_ok (with_extensions cfg exts) f = true <->
  exts = [] \/ exists e p, In e exts /\ f = p +:+ e.
Proof.
  unfold extension_ok, with_extensions. cbn [extensions].
  destruct exts as [|e0 exts0] eqn:He.
  - split; [now left|reflexivity].
  - rewrite existsb_exists. split.
    + intros (e & Hin & Hs). right. apply endswith_spec in Hs.
      destruct Hs as (p & ->). now exists e, p.
    + intros [Hnil|(e & p & Hin & ->)]; [discriminate Hnil|].
      exists e. split; [exact Hin|]. apply endswith_spec. now exists p.
Qed.

Lemma file_passes_extensions (rel : rel_path) (f : string) :
  file_passes (with_extensions cfg exts) rules rel f =
  file_passes (with_extensions cfg []) rules rel f
  && extension_ok (with_extensions cfg exts) f.
Proof.
  unfold file_passes, hidden_ok, ignore_glob_ok, extension_ok, with_extensions.
  cbn [include_hidden ignore_patterns extensions]. now rewrite andb_true_r.
Qed.

Lemma survives_nonempty (c : config) (rel : rel_path) (n : node) (parts : list string) :
  survives c rules rel n parts -> parts <> [].
Proof. destruct 1; discriminate. Qed.

Lemma last_cons_nonempty (d : string) (parts : list string) :
  parts <> [] -> List.last (d :: parts) "" = List.last parts "".
Proof. destruct parts; [congruence|reflexivity]. Qed.

Lemma survives_extensions (rel : rel_path) (n : node) (parts : list string) :
  survives (with_extensions cfg exts) rules rel n parts <->
  survives (with_extensions cfg []) rules rel n parts
  /\ extension_ok (with_extensions cfg exts) (List.last parts "") = true.
Proof.
  split.
  - induction 1 as [rel es f d Hin Hp|rel es d es' parts Hin Hp Hs IH].
    + rewrite file_passes_extensions in Hp. apply andb_true_iff in Hp.
      destruct Hp as [Hp He]. split; [|exact He].
      now apply (survives_file _ _ _ _ _ d).
    + destruct IH as [IH He]. split.
      * now apply (survives_below _ _ _ _ _ es').
      * rewrite last_cons_nonempty; [exact He|].
        now apply (survives_nonempty _ _ _ _ Hs).
  - intros [Hs He]. induction Hs as [rel es f d Hin Hp|rel es d es' parts Hin Hp Hs IH].
    + apply (survives_file _ _ _ _ _ d); [exact Hin|].
      rewrite file_passes_extensions. apply andb_true_iff. now split.
    + apply (survives_below _ _ _ _ _ es'); [exact Hin|exact Hp|].
      apply IH. rewrite last_cons_nonempty in He; [exact He|].
      now apply (survives_nonempty _ _ _ _ Hs).
Qed.

End Extensions.

(** C5: with a non-empty extension tuple a file name passes the extension
    filter exactly when it ends with one of the suffixes, as strings; the
    filter is the last stage of the loop body and leaves the other stages
    unchanged, so in every tree a file survives exactly when it survives
    without the extension filter and its name has such a suffix.  With the
    extension [py] both [script.py] and [report.copy] pass, and are in the
    walker's output of every tree in which they pass the other filters. *)
Theorem extension_filter_raw_suffix {E : Externals} (cfg : config)
    (exts : list string) (rules : list string) :
  (forall f : string,
      extension_ok (with_extensions cfg exts) f = true <->
      exts = [] \/ exists e p, In e exts /\ f = p +:+ e)
  /\ (forall (rel : rel_path) (dirs files : list string),
        snd (filter_listing (with_extensions cfg exts) rules rel dirs files) =
        List.filter (extension_ok (with_extensions cfg exts))
          (snd (filter_listing (with_extensions cfg []) rules rel dirs files)))
  /\ (forall (rel : rel_path) (n : node) (parts : list string),
        survives (with_extensions cfg exts) rules rel n parts <->
        survives (with_extensions cfg []) rules rel n parts
        /\ extension_ok (with_extensions cfg exts) (List.last parts "") = true)
  /\ extension_ok (with_extensions cfg ["py"]) "script.py" = true
  /\ extension_ok (with_extensions cfg ["py"]) "report.copy" = true
  /\ extension_ok (with_extensions cfg ["py"]) "notes.txt" = false
  /\ (forall (path : string) (n : node) (dirs : list string) (f : string),
        f = "script.py" \/ f = "report.copy" ->
        survives (with_extensions cfg []) rules [] n (dirs ++ [f]) ->
        In (full_path path (dirs ++ [f]))
           (files_in_order (with_extensions cfg ["py"]) rules path n)).
Proof.
  split; [apply extension_ok_spec|].
  split.
  { intros rel dirs files. rewrite !filter_listing_files, filter_twice.
    apply filter_ext. intros f. apply file_passes_extensions. }
  split; [apply survives_extensions|].
  split; [reflexivity|]. split; [reflexivity|]. split; [reflexivity|].
  intros path n dirs f Hf Hs. unfold files_in_order.
  apply sorted_In, walk_In. exists (dirs ++ [f]). split; [|reflexivity].
  apply survives_extensions. split; [exact Hs|].
  rewrite last_last. destruct Hf as [-> | ->]; reflexivity.
Qed.

(** *** Running the renderers *)

Lemma state_eta (st : state) : mkState (out st) (err st) (global_index st) = st.
Proof. now destruct st. Qed.

Lemma for_each_app {A} (l1 l2 : list A) (body : A -> M unit) (st : state) :
  for_each (l1 ++ l2) body st =
  match for_each l1 body st with
  | (Ok _, st') => for_each l2 body st'
  | (Raise e, st') => (Raise e, st')
  end.
Proof.
  revert st. induction l1 as [|x l1 IH]; intros st; [reflexivity|].
  cbn [for_each app]. unfold bind.
  destruct (body x st) as [[[]|e] st']; [apply IH|reflexivity].
Qed.

Lemma for_each_warn (ws : list string) (st : state) :
  for_each ws warn st = (Ok tt, mkState (out st) (err st ++ ws) (global_index st)).
Proof.
  revert st. induction ws as [|w ws IH]; intros st.
  - cbn. now rewrite app_nil_r, state_eta.
  - cbn [for_each]. unfold bind, warn at 1. rewrite IH. cbn [out err global_index].
    now rewrite <- app_assoc.
Qed.

Lemma print_default_run (path content : string) (line_numbers : bool) (st : state) :
  print_default path content line_numbers st =
  (Ok tt, mkState (out st ++ default_block path content line_numbers)
                  (err st) (global_index st)).
Proof.
  unfold print_default, bind, writer, default_block. cbn [out err global_index].
  now rewrite <- !app_assoc.
Qed.

Lemma print_as_xml_run (path content : string) (line_numbers : bool) (st : state) :
  print_as_xml path content line_numbers st =
  (Ok tt, mkState (out st ++ xml_block (global_index st) path content line_numbers)
                  (err st) (global_index st + 1)).
Proof.
  unfold print_as_xml, bind, writer, get_global_index, set_global_index, xml_block.
  cbn [out err global_index]. now rewrite <- !app_assoc.
Qed.

Section Runs.
Context {E : Externals}.

Lemma print_path_run (cfg : config) (path content : string) (st : state) :
  print_path path content (claude_xml cfg) (markdown cfg) (line_numbers cfg) st =
  (Ok tt, mkState (out st ++ block cfg (global_index st) path content)
                  (err st) (advance cfg (global_index st) 1)).
Proof.
  unfold print_path, block, advance.
  destruct (claude_xml cfg); [apply print_as_xml_run|].
  destruct (markdown cfg); [apply print_as_markdown_out|apply print_default_run].
Qed.

Lemma advance_advance (cfg : config) (i a b : nat) :
  advance cfg (advance cfg i a) b = advance cfg i (a + b).
Proof. unfold advance. destruct (claude_xml cfg); lia. Qed.

Lemma advance_0 (cfg : config) (i : nat) : advance cfg i 0 = i.
Proof. unfold advance. destruct (claude_xml cfg); lia. Qed.

(** Outside the XML format a block does not depend on the counter. *)
Lemma block_index (cfg : config) (i j : nat) (path content : string) :
  claude_xml cfg = false -> block cfg i path content = block cfg j path content.
Proof. unfold block. now intros ->. Qed.

Lemma blocks_index (cfg : config) (i j : nat) (l : list (string * string)) :
  claude_xml cfg = false -> blocks cfg i l = blocks cfg j l.
Proof.
  intros Hx. revert i j. induction l as [|[p c] l IH]; intros i j; [reflexivity|].
  cbn [blocks]. now rewrite (block_index cfg i j), (IH (S i) (S j)).
Qed.

Lemma blocks_advance (cfg : config) (i : nat) (l : list (string * string)) :
  blocks cfg (advance cfg i 1) l = blocks cfg (S i) l.
Proof.
  unfold advance. destruct (claude_xml cfg) eqn:Hx.
  - now rewrite Nat.add_1_r.
  - now apply blocks_index.
Qed.

Lemma blocks_app (cfg : config) (i : nat) (l1 l2 : list (string * string)) :
  blocks cfg i (l1 ++ l2) = blocks cfg i l1 ++ blocks cfg (advance cfg i (length l1)) l2.
Proof.
  revert i. induction l1 as [|[p c] l1 IH]; intros i.
  - cbn. now rewrite advance_0.
  - cbn [blocks app length]. rewrite IH, <- app_assoc. do 2 f_equal.
    unfold advance. destruct (claude_xml cfg) eqn:Hx.
    + f_equal. lia.
    + now apply blocks_index.
Qed.

(** The emission loop over paths that [open] resolves. *)
Lemma emit_files_run (cfg : config) (table : list (string * data)) (files : list string) :
  (forall p, In p files -> open_read table p <> None) ->
  forall st : state,
    for_each files (emit_file table cfg) st =
    (Ok tt,
     mkState (out st ++ blocks cfg (global_index st) (texts table files))
             (err st ++ List.map skipped_file (binaries table files))
             (advance cfg (global_index st) (length (texts table files)))).
Proof.
  induction files as [|p files IH]; intros Hopen st.
  - cbn. now rewrite !app_nil_r, advance_0, state_eta.
  - cbn [for_each]. unfold bind, emit_file at 1.
    assert (Hp : open_read table p <> None) by (apply Hopen; now left).
    assert (Hrest : forall q, In q files -> open_read table q <> None)
      by (intros q Hq; apply Hopen; now right).
    unfold texts, binaries. cbn [flat_map List.filter].
    fold (texts table files). fold (binaries table files).
    destruct (open_read table p) as [[content|]|]; [| |congruence].
    + rewrite print_path_run, (IH Hrest). cbn [out err global_index app length blocks].
      rewrite blocks_advance, advance_advance, <- app_assoc. reflexivity.
    + unfold warn. rewrite (IH Hrest). cbn [out err global_index app List.map].
      now rewrite <- app_assoc.
Qed.

End Runs.

(** *** Every collected path can be opened *)

Lemma open_read_found (table : list (string * data)) (p : string) (d : data) :
  In (p, d) table -> open_read table p <> None.
Proof.
  unfold open_read. induction table as [|[q d'] table IH]; intros Hin; [destruct Hin|].
  cbn [List.find fst]. destruct (String.eqb_spec q p) as [->|Hne]; [discriminate|].
  destruct Hin as [Heq|Hin]; [congruence|now apply IH].
Qed.

Section Process.
Context {E : Externals}.

Lemma survives_files_below (cfg : config) (rules : list string) (rel : rel_path)
    (n : node) (parts : list string) :
  survives cfg rules rel n parts ->
  forall root : string, exists d, In (full_path root parts, d) (files_below root n).
Proof.
  induction 1 as [rel es f d Hin Hp|rel es d es' parts Hin Hp Hs IH]; intros root.
  - exists d. cbn [files_below]. apply in_flat_map. exists (f, File d).
    split; [exact Hin|now left].
  - destruct (IH (os_path_join root d)) as (d0 & Hd0). exists d0.
    cbn [files_below]. apply in_flat_map. exists (d, Dir es').
    split; [exact Hin|exact Hd0].
Qed.

Lemma files_in_order_open (cfg : config) (rules : list string) (path : string)
    (n : node) (p : string) :
  In p (files_in_order cfg rules path n) -> open_read (files_below path n) p <> None.
Proof.
  unfold files_in_order. rewrite sorted_In, walk_In.
  intros (parts & Hs & ->).
  destruct (survives_files_below _ _ _ _ _ Hs path) as (d & Hd).
  now apply (open_read_found _ _ d).
Qed.

(** One target: what it writes, what it warns about, where it leaves the
    counter; it never raises. *)
Lemma process_path_run (cfg : config) (path : string) (n : node) (st : state) :
  process_path path n cfg st =
  (Ok tt,
   mkState (out st ++ blocks cfg (global_index st) (path_texts cfg path n))
           (err st ++ path_warnings cfg path n)
           (advance cfg (global_index st) (length (path_texts cfg path n)))).
Proof.
  destruct n as [[content|]|es].
  - cbn [process_path path_texts path_warnings blocks length].
    now rewrite print_path_run, !app_nil_r.
  - cbn [process_path path_texts path_warnings blocks length]. unfold warn.
    now rewrite app_nil_r, advance_0.
  - unfold process_path, path_texts, path_warnings. fold (path_events cfg path (Dir es)).
    unfold bind. rewrite for_each_warn, emit_files_run.
    + cbn [out err global_index]. now rewrite <- app_assoc.
    + intros p. apply files_in_order_open.
Qed.

Variables (fs : string -> option node) (cfg : config).

Lemma visit_all_run (paths : list string) :
  forallb (path_exists fs) paths = true ->
  forall st : state,
    for_each paths (visit fs cfg) st =
    (Ok tt,
     mkState (out st ++ blocks cfg (global_index st) (run_texts fs cfg paths))
             (err st ++ run_warnings fs cfg paths)
             (advance cfg (global_index st) (length (run_texts fs cfg paths)))).
Proof.
  induction paths as [|p paths IH]; intros Hall st.
  - cbn. now rewrite !app_nil_r, advance_0, state_eta.
  - cbn [forallb] in Hall. apply andb_true_iff in Hall. destruct Hall as [Hp Hall].
    cbn [for_each]. unfold bind, visit at 1, run_texts, run_warnings.
    cbn [flat_map]. fold (run_texts fs cfg paths). fold (run_warnings fs cfg paths).
    unfold path_exists in Hp. destruct (fs p) as [n|]; [|discriminate Hp].
    rewrite process_path_run, (IH Hall). cbn [out err global_index].
    rewrite blocks_app, advance_advance, length_app, <- !app_assoc. reflexivity.
Qed.

Lemma visit_missing_run (pre post : list string) (p : string) :
  forallb (path_exists fs) pre = true ->
  fs p = None ->
  forall st : state,
    for_each (pre ++ p :: post) (visit fs cfg) st =
    (Raise (BadArgumentUsage ("Path does not exist: " +:+ p)),
     mkState (out st ++ blocks cfg (global_index st) (run_texts fs cfg pre))
             (err st ++ run_warnings fs cfg pre)
             (advance cfg (global_index st) (length (run_texts fs cfg pre)))).
Proof.
  intros Hpre Hp st. rewrite for_each_app, (visit_all_run pre Hpre).
  cbn [for_each]. unfold bind, visit at 1. now rewrite Hp.
Qed.

End Process.

(** *** The command *)

Lemma find_app_first {A} (f : A -> bool) (l1 l2 : list A) :
  List.find f (l1 ++ l2) =
  match List.find f l1 with
  | Some x => Some x
  | None => List.find f l2
  end.
Proof.
  induction l1 as [|a l1 IH]; [reflexivity|].
  cbn [List.find app]. now destruct (f a).
Qed.

Lemma find_none_forallb {A} (f : A -> bool) (l : list A) :
  List.find (fun x => negb (f x)) l = None <-> forallb f l = true.
Proof.
  induction l as [|a l IH]; [now split|].
  cbn [List.find forallb]. destruct (f a); cbn [negb andb]; [exact IH|].
  split; discriminate.
Qed.

Lemma find_first_missing {A} (f : A -> bool) (pre post : list A) (p : A) :
  forallb f pre = true -> f p = false ->
  List.find (fun x => negb (f x)) (pre ++ p :: post) = Some p.
Proof.
  intros Hpre Hp. rewrite find_app_first.
  apply find_none_forallb in Hpre. rewrite Hpre.
  cbn [List.find]. now rewrite Hp.
Qed.

Section Command.
Context {E : Externals}.
Variables (fs : string -> option node) (cfg : config).

Lemma when_writer (b : bool) (s : string) (st : state) :
  when b (writer s) st =
  (Ok tt, mkState (out st ++ (if b then [s] else [])) (err st) (global_index st)).
Proof.
  destruct b; cbn [when]; [reflexivity|].
  unfold ret. now rewrite app_nil_r, state_eta.
Qed.

Lemma cli_unfold (paths : list string) (stdin : option string) (null : bool) (st : state) :
  cli fs paths stdin null cfg st =
  match for_each (paths ++ read_paths_from_stdin stdin null) (visit fs cfg)
          (mkState (out st ++ header cfg) (err st) 1) with
  | (Ok _, st') =>
      (Ok tt, mkState (out st' ++ footer cfg) (err st') (global_index st'))
  | (Raise e, st') => (Raise e, st')
  end.
Proof.
  unfold cli, bind at 1. unfold set_global_index at 1.
  unfold bind at 1. rewrite when_writer. cbn [out err global_index].
  unfold bind at 1. fold (header cfg).
  change (fun path : string =>
            match fs path with
            | Some n => process_path path n cfg
            | None => raise (BadArgumentUsage ("Path does not exist: " +:+ path))
            end) with (visit fs cfg).
  destruct (for_each _ (visit fs cfg) _) as [[[]|e] st']; [|reflexivity].
  rewrite when_writer. reflexivity.
Qed.

(** A run over targets that all exist. *)
Lemma cli_run (paths : list string) (stdin : option string) (null : bool) (st : state) :
  forallb (path_exists fs) (paths ++ read_paths_from_stdin stdin null) = true ->
  cli fs paths stdin null cfg st =
  (Ok tt,
   mkState
     (out st ++ header cfg
      ++ blocks cfg 1 (run_texts fs cfg (paths ++ read_paths_from_stdin stdin null))
      ++ footer cfg)
     (err st ++ run_warnings fs cfg (paths ++ read_paths_from_stdin stdin null))
     (advance cfg 1
        (length (run_texts fs cfg (paths ++ read_paths_from_stdin stdin null))))).
Proof.
  intros Hall. rewrite cli_unfold, (visit_all_run fs cfg _ Hall).
  cbn [out err global_index]. now rewrite <- !app_assoc.
Qed.

(** A run that meets a missing target after the targets [pre]. *)
Lemma cli_missing (paths : list string) (stdin : option string) (null : bool)
    (pre post : list string) (p : string) (st : state) :
  paths ++ read_paths_from_stdin stdin null = pre ++ p :: post ->
  forallb (path_exists fs) pre = true ->
  fs p = None ->
  cli fs paths stdin null cfg st =
  (Raise (BadArgumentUsage ("Path does not exist: " +:+ p)),
   mkState (out st ++ header cfg ++ blocks cfg 1 (run_texts fs cfg pre))
           (err st ++ run_warnings fs cfg pre)
           (advance cfg 1 (length (run_texts fs cfg pre)))).
Proof.
  intros Hsplit Hpre Hp.
  rewrite cli_unfold, Hsplit, (visit_missing_run fs cfg pre post p Hpre Hp).
  cbn [out err global_index]. now rewrite <- !app_assoc.
Qed.

End Command.

(** C7: a traversal target that is a file is rendered whatever the
    configuration says about extensions, hidden entries, ignore patterns and
    gitignore: it is handed to the renderer when it decodes and skipped with
    one warning when it does not, and the call never raises.  A hidden file
    that the hidden, ignore-glob and extension filters all drop inside a
    directory is rendered when it is named as the target. *)
Theorem single_file_target_unfiltered {E : Externals} (cfg : config)
    (path : string) (d : data) (st : state) :
  process_path path (File d) cfg st =
    match d with
    | Text content =>
        (Ok tt, mkState (out st ++ block cfg (global_index st) path content)
                        (err st) (advance cfg (global_index st) 1))
    | Binary =>
        (Ok tt, mkState (out st) (err st ++ [skipped_file path]) (global_index st))
    end
  /\ (forall (exts pats : list string) (hidden files_only no_gitignore : bool),
        process_path path (File d)
          (mkConfig exts hidden files_only no_gitignore pats
                    (claude_xml cfg) (markdown cfg) (line_numbers cfg)) st
        = process_path path (File d) cfg st)
  /\ files_in_order Sample.strict [] "d" (Dir [(".env.log", File (Text "KEY"))]) = []
  /\ process_path ".env.log" (File (Text "KEY")) Sample.strict Sample.st0 =
     (Ok tt, mkState (default_block (as_posix ".env.log") "KEY" false) [] 1).
Proof.
  split; [|split; [|split]].
  - destruct d as [content|]; cbn [process_path].
    + apply print_path_run.
    + reflexivity.
  - intros exts pats hidden files_only no_gitignore. destruct d; reflexivity.
  - unfold files_in_order, sorted. cbn [walk]. unfold filter_listing.
    cbn. reflexivity.
  - cbn [process_path]. rewrite print_path_run. reflexivity.
Qed.

(** C4: a target never raises, whatever its files hold.  The files that
    decode are rendered in order and numbered consecutively from the
    counter, each file that does not decode adds one warning and nothing to
    the output, and the counter advances by the number of rendered files in
    the XML format.  Inside the loop a file that does not decode leaves the
    output and the counter as they are and the loop goes on with the next
    file.  For three files of which the second is binary the XML output holds
    the documents 1 and 2, one warning is echoed, and the counter ends at 3. *)
Theorem decode_failure_isolated {E : Externals} (cfg : config) (path : string)
    (n : node) (st : state) :
  fst (process_path path n cfg st) = Ok tt
  /\ out (snd (process_path path n cfg st)) =
     out st ++ blocks cfg (global_index st) (path_texts cfg path n)
  /\ err (snd (process_path path n cfg st)) = err st ++ path_warnings cfg path n
  /\ global_index (snd (process_path path n cfg st)) =
     (if claude_xml cfg then global_index st + length (path_texts cfg path n)
      else global_index st)
  /\ (forall (table : list (string * data)) (p : string) (rest : list string) (st1 : state),
        open_read table p = Some Binary ->
        for_each (p :: rest) (emit_file table cfg) st1 =
        for_each rest (emit_file table cfg)
          (mkState (out st1) (err st1 ++ [skipped_file p]) (global_index st1)))
  /\ path_texts (E:=Reference) Sample.xml "d" Sample.three
     = [("d/a.txt", "A"); ("d/c.txt", "C")]
  /\ cli (E:=Reference) Sample.fs ["d"] None false Sample.xml Sample.st7 =
     (Ok tt,
      mkState
        (["<documents>"]
         ++ xml_block 1 "d/a.txt" "A" false
         ++ xml_block 2 "d/c.txt" "C" false
         ++ ["</documents>"])
        [skipped_file "d/b.bin"]
        3).
Proof.
  rewrite process_path_run. cbn [fst snd out err global_index].
  split; [reflexivity|]. split; [reflexivity|]. split; [reflexivity|].
  split; [reflexivity|]. split.
  { intros table p rest st1 Hp. cbn [for_each]. unfold bind, emit_file at 1.
    rewrite Hp. reflexivity. }
  split; vm_compute; reflexivity.
Qed.

(** C6, as amended: the body of the command sets the counter to 1 before
    anything is written, so a run does not depend on the counter it finds;
    the counter is incremented once for every file rendered in the XML
    format and stays at 1 in the plain and Markdown formats, whose blocks do
    not depend on it; and when two files are rendered in the XML format the
    output is [<documents>], the block numbered 1, the block numbered 2 and
    [</documents>], in emission order. *)
Theorem counter_lifecycle {E : Externals} (fs : string -> option node)
    (paths : list string) (stdin : option string) (null : bool) (cfg : config)
    (st : state)
    (Hall : forallb (path_exists fs) (paths ++ read_paths_from_stdin stdin null) = true) :
  cli fs paths stdin null cfg st =
    (Ok tt,
     mkState
       (out st ++ header cfg
        ++ blocks cfg 1 (run_texts fs cfg (paths ++ read_paths_from_stdin stdin null))
        ++ footer cfg)
       (err st ++ run_warnings fs cfg (paths ++ read_paths_from_stdin stdin null))
       (if claude_xml cfg
        then 1 + length (run_texts fs cfg (paths ++ read_paths_from_stdin stdin null))
        else 1))
  /\ (forall i : nat,
        cli fs paths stdin null cfg (mkState (out st) (err st) i) =
        cli fs paths stdin null cfg st)
  /\ (claude_xml cfg = false ->
      forall (i j : nat) (l : list (string * string)), blocks cfg i l = blocks cfg j l)
  /\ (claude_xml cfg = true ->
      forall p1 c1 p2 c2,
        run_texts fs cfg (paths ++ read_paths_from_stdin stdin null) = [(p1, c1); (p2, c2)] ->
        out (snd (cli fs paths stdin null cfg st)) =
        out st ++ ["<documents>"]
        ++ xml_block 1 (as_posix p1) c1 (line_numbers cfg)
        ++ xml_block 2 (as_posix p2) c2 (line_numbers cfg)
        ++ ["</documents>"]).
Proof.
  split; [|split; [|split]].
  - rewrite (cli_run fs cfg paths stdin null st Hall). unfold advance.
    now destruct (claude_xml cfg).
  - intros i. now rewrite !(cli_run fs cfg paths stdin null _ Hall).
  - intros Hx i j l. now apply blocks_index.
  - intros Hx p1 c1 p2 c2 Htexts.
    rewrite (cli_run fs cfg paths stdin null st Hall). cbn [snd out].
    rewrite Htexts. unfold header, footer, block. cbn [blocks]. unfold block.
    rewrite Hx, app_nil_r. now rewrite <- !app_assoc.
Qed.

Lemma counter_lifecycle_witness :
  forallb (path_exists Sample.fs) (["a.txt"; "b.txt"] ++ read_paths_from_stdin None false) = true
  /\ cli Sample.fs ["a.txt"; "b.txt"] None false Sample.xml Sample.st7 =
     (Ok tt,
      mkState
        (["<documents>"]
         ++ xml_block 1 (as_posix "a.txt") "A" false
         ++ xml_block 2 (as_posix "b.txt") "B" false
         ++ ["</documents>"])
        [] 3).
Proof.
  split; [reflexivity|].
  exact (proj1 (counter_lifecycle Sample.fs ["a.txt"; "b.txt"] None false
                  Sample.xml Sample.st7 eq_refl)).
Defined.

(** C6, as stated, fails outside the XML format: in the plain format a run
    that renders one file leaves the counter at 1, not at 2. *)
Lemma counter_unchanged_in_plain_format :
  fst (cli Sample.fs ["a.txt"] None false Sample.plain Sample.st0) = Ok tt
  /\ out (snd (cli Sample.fs ["a.txt"] None false Sample.plain Sample.st0))
     = ["a.txt"; "---"; "A"; ""; "---"]
  /\ length (run_texts Sample.fs Sample.plain ["a.txt"]) = 1
  /\ global_index (snd (cli Sample.fs ["a.txt"] None false Sample.plain Sample.st0)) = 1
  /\ global_index (snd (cli Sample.fs ["a.txt"] None false Sample.plain Sample.st0))
     <> 1 + length (run_texts Sample.fs Sample.plain ["a.txt"]).
Proof. vm_compute. repeat split; discriminate. Qed.

(** C8: when a target does not exist the command ends in a usage error.
    Let [p] be the first missing target and [pre] the targets before it.
    If [p] is one of the [paths] arguments, click rejects it before the body
    runs and nothing is written.  Otherwise the body raises when it reaches
    [p]: the output then holds the header and the blocks of [pre], exactly
    what a run over [pre] alone writes before its footer, and nothing of [p]
    or of the targets after it. *)
Theorem missing_path_aborts {E : Externals} (fs : string -> option node)
    (paths : list string) (stdin : option string) (null : bool) (cfg : config)
    (st : state) (pre post : list string) (p : string)
    (Hsplit : paths ++ read_paths_from_stdin stdin null = pre ++ p :: post)
    (Hpre : forallb (path_exists fs) pre = true)
    (Hp : fs p = None) :
  (exists e, fst (cli_command fs paths stdin null cfg st) = Raise e
             /\ is_usage_error e = true)
  /\ (if forallb (path_exists fs) paths
      then cli_command fs paths stdin null cfg st =
             (Raise (BadArgumentUsage ("Path does not exist: " +:+ p)),
              mkState (out st ++ header cfg ++ blocks cfg 1 (run_texts fs cfg pre))
                      (err st ++ run_warnings fs cfg pre)
                      (advance cfg 1 (length (run_texts fs cfg pre))))
           /\ out (snd (cli_command fs pre None null cfg st)) =
              out (snd (cli_command fs paths stdin null cfg st)) ++ footer cfg
      else cli_command fs paths stdin null cfg st = (Raise (BadParameter p), st)).
Proof.
  assert (Hmiss : path_exists fs p = false) by (unfold path_exists; now rewrite Hp).
  assert (Hcases :
    if forallb (path_exists fs) paths
    then cli_command fs paths stdin null cfg st =
           (Raise (BadArgumentUsage ("Path does not exist: " +:+ p)),
            mkState (out st ++ header cfg ++ blocks cfg 1 (run_texts fs cfg pre))
                    (err st ++ run_warnings fs cfg pre)
                    (advance cfg 1 (length (run_texts fs cfg pre))))
    else cli_command fs paths stdin null cfg st = (Raise (BadParameter p), st)).
  { unfold cli_command.
    destruct (forallb (path_exists fs) paths) eqn:Hargs.
    - apply find_none_forallb in Hargs. rewrite Hargs.
      now apply (cli_missing fs cfg paths stdin null pre post p).
    - pose proof (find_first_missing (path_exists fs) pre post p Hpre Hmiss) as Hfirst.
      rewrite <- Hsplit, find_app_first in Hfirst.
      destruct (List.find (fun x => negb (path_exists fs x)) paths) as [q|] eqn:Hfind.
      + injection Hfirst as ->. reflexivity.
      + apply find_none_forallb in Hfind. congruence. }
  split.
  - destruct (forallb (path_exists fs) paths); rewrite Hcases; eexists; split; reflexivity.
  - destruct (forallb (path_exists fs) paths); [|exact Hcases].
    split; [exact Hcases|]. rewrite Hcases. cbn [snd out].
    unfold cli_command.
    assert (Hnone : List.find (fun x => negb (path_exists fs x)) pre = None)
      by now apply find_none_forallb.
    rewrite Hnone.
    assert (Hall : forallb (path_exists fs) (pre ++ read_paths_from_stdin None null) = true)
      by (cbn [read_paths_from_stdin]; now rewrite app_nil_r).
    rewrite (cli_run fs cfg pre None null st Hall). cbn [snd out read_paths_from_stdin].
    now rewrite app_nil_r, <- !app_assoc.
Qed.

Lemma missing_path_aborts_witness :
  ([] : list string) ++ read_paths_from_stdin (Some "a.txt nowhere b.txt") false
    = ["a.txt"] ++ "nowhere" :: ["b.txt"]
  /\ Sample.fs "nowhere" = None
  /\ cli_command Sample.fs [] (Some "a.txt nowhere b.txt") false Sample.xml Sample.st0 =
       (Raise (BadArgumentUsage "Path does not exist: nowhere"),
        mkState (["<documents>"] ++ xml_block 1 "a.txt" "A" false) [] 2).
Proof.
  split; [reflexivity|]. split; [reflexivity|].
  exact (proj1 (proj2 (missing_path_aborts Sample.fs [] (Some "a.txt nowhere b.txt")
                         false Sample.xml Sample.st0 ["a.txt"] ["b.txt"] "nowhere"
                         eq_refl eq_refl eq_refl))).
Defined.

Example missing_argument_rejected :
  cli_command Sample.fs ["a.txt"; "nowhere"] None false Sample.xml Sample.st0
  = (Raise (BadParameter "nowhere"), Sample.st0).
Proof. reflexivity. Qed.

(** *** The collected patterns *)

Lemma patterns_of_app (a b : list event) :
  patterns_of (a ++ b) = patterns_of a ++ patterns_of b.
Proof. apply flat_map_app. Qed.

Lemma patterns_of_map_Pattern (l : list string) : patterns_of (List.map Pattern l) = l.
Proof. induction l as [|p l IH]; [reflexivity|]. cbn. now f_equal. Qed.

Lemma gitignore_patterns_In (rel : rel_path) (content pat : string) :
  In pat (gitignore_patterns rel content) <->
  exists line, In line (Str.file_lines content)
               /\ pattern_line line = true
               /\ pat = anchored rel (Str.strip line).
Proof.
  unfold gitignore_patterns, pattern_line. rewrite in_flat_map. split.
  - intros (line & Hin & Hpat). exists line. split; [exact Hin|].
    destruct (Str.nonempty (Str.strip line) && negb (Str.startswith (Str.strip line) "#"));
      [|destruct Hpat].
    destruct Hpat as [<-|[]]. now split.
  - intros (line & Hin & Hp & ->). exists line. split; [exact Hin|].
    rewrite Hp. now left.
Qed.

Section Collect.
Context {E : Externals}.

Lemma gitignore_walk_Dir (root : string) (rel : rel_path) (es : list (string * node))
    (pat : string) :
  In pat (patterns_of (gitignore_walk root rel (Dir es))) <->
  (exists content, entry ".gitignore" es = Some (File (Text content))
                   /\ In pat (gitignore_patterns rel content))
  \/ (exists e, In e es
                /\ In pat (patterns_of (gitignore_walk (os_path_join root (fst e))
                                                       (path_div rel (fst e)) (snd e)))).
Proof.
  cbn [gitignore_walk]. rewrite patterns_of_app, in_app_iff.
  match goal with
  | |- ?A \/ ?C <-> ?B \/ ?D => cut ((A <-> B) /\ (C <-> D)); [tauto|split]
  end.
  - destruct (entry ".gitignore" es) as [[[content|]|es']|].
    + rewrite patterns_of_map_Pattern. split.
      * intros Hin. now exists content.
      * intros (c & Hc & Hin). now injection Hc as ->.
    + cbn. split; [intros []|]. intros (c & Hc & _). discriminate Hc.
    + cbn. split; [intros []|]. intros (c & Hc & _). discriminate Hc.
    + cbn. split; [intros []|]. intros (c & Hc & _). discriminate Hc.
  - unfold patterns_of at 1. rewrite in_flat_map. split.
    + intros (ev & Hev & Hpat). apply in_flat_map in Hev.
      destruct Hev as (e & He & Hev). exists e. split; [exact He|].
      unfold patterns_of. apply in_flat_map. now exists ev.
    + intros (e & He & Hin). unfold patterns_of in Hin. apply in_flat_map in Hin.
      destruct Hin as (ev & Hev & Hpat). exists ev. split; [|exact Hpat].
      apply in_flat_map. now exists e.
Qed.

(** The patterns collected below a directory are the pattern lines of the
    decodable [.gitignore] files found in it, each anchored at the directory
    that holds the file. *)
Lemma gitignore_walk_In (n : node) :
  forall (root : string) (rel : rel_path) (pat : string),
    In pat (patterns_of (gitignore_walk root rel n)) <->
    exists parts es content line,
      dir_at n parts es
      /\ entry ".gitignore" es = Some (File (Text content))
      /\ In line (Str.file_lines content)
      /\ pattern_line line = true
      /\ pat = anchored (rel ++ parts) (Str.strip line).
Proof.
  induction n as [d|es IH] using node_rect'; intros root rel pat.
  - cbn. split; [intros []|]. intros (parts & es & c & l & Hd & _). inversion Hd.
  - rewrite Stdlib.Lists.List.Forall_forall in IH. rewrite gitignore_walk_Dir. split.
    + intros [(content & Hc & Hin)|((name & child) & He & Hin)].
      * apply gitignore_patterns_In in Hin. destruct Hin as (line & Hl & Hp & ->).
        exists [], es, content, line. rewrite app_nil_r.
        repeat split; try assumption. constructor.
      * cbn [fst snd] in Hin. apply (IH _ He) in Hin.
        destruct Hin as (parts & es' & content & line & Hd & Hc & Hl & Hp & ->).
        exists (name :: parts), es', content, line.
        repeat split; try assumption.
        -- now apply (dir_at_below es name child).
        -- unfold path_div. now rewrite <- app_assoc.
    + intros (parts & es' & content & line & Hd & Hc & Hl & Hp & ->).
      inversion Hd; subst.
      * left. exists content. split; [exact Hc|].
        apply gitignore_patterns_In. exists line. rewrite app_nil_r. now repeat split.
      * right. exists (name, child). split; [assumption|]. cbn [fst snd].
        match goal with H : In (name, child) es |- _ => apply (IH _ H) end.
        exists parts0, es', content, line. repeat split; try assumption.
        unfold path_div. now rewrite <- app_assoc.
Qed.

End Collect.

(** C2: the patterns collected for a traversal root are exactly the pattern
    lines (stripped, not empty, not comments) of the decodable [.gitignore]
    files of its directories, each stored with the parts of its directory
    relative to the root in front: verbatim for the root, and behind the
    directory's path and a slash for a directory below it.  With [build/] in
    [sub/.gitignore] the stored pattern is [sub/build/]; the files below
    [sub/build] are dropped and the file in the top-level [build] is kept. *)
Theorem gitignore_patterns_reanchored {E : Externals} (root : string) (n : node)
    (pat : string) :
  (In pat (patterns_of (gitignore_walk root [] n)) <->
   exists parts es content line,
     dir_at n parts es
     /\ entry ".gitignore" es = Some (File (Text content))
     /\ In line (Str.file_lines content)
     /\ pattern_line line = true
     /\ pat = anchored parts (Str.strip line))
  /\ (forall line, anchored [] line = line)
  /\ (forall d ds line,
        String.eqb (path_str (d :: ds)) "." = false ->
        anchored (d :: ds) line = Str.join "/" (d :: ds) +:+ "/" +:+ line)
  /\ (forall cfg path,
        ignore_gitignore cfg = false ->
        patterns_of (path_events cfg path n)
        = patterns_of (gitignore_walk (as_posix path) [] n))
  /\ patterns_of (gitignore_walk (E:=Reference) "r" [] Sample.anchoring) = ["sub/build/"]
  /\ walk (E:=Reference) Sample.plain ["sub/build/"] "r" [] Sample.anchoring
     = ["r/build/keep.o"; "r/sub/src.c"]
  /\ path_texts (E:=Reference) Sample.plain "r" Sample.anchoring
     = [("r/build/keep.o", "K"); ("r/sub/src.c", "S")].
Proof.
  split; [apply (gitignore_walk_In n root [] pat)|].
  split; [reflexivity|].
  split.
  { intros d ds line Hne. unfold anchored. now rewrite Hne. }
  split.
  { intros cfg path Hg. unfold path_events. now rewrite Hg. }
  split; [vm_compute; reflexivity|]. split; vm_compute; reflexivity.
Qed.

(** *** Negated patterns below the root *)

Lemma anchored_first_char (d : string) (ds : list string) (line : string) :
  Str.startswith d "!" = false ->
  exists c s, Str.join "/" (d :: ds) +:+ "/" +:+ line = String c s
              /\ Ascii.eqb c "!" = false.
Proof.
  intros Hd. destruct d as [|c d'].
  - exists "/"%char. destruct ds as [|d2 ds]; cbn; eexists; split; reflexivity.
  - exists c. unfold Str.startswith in Hd. cbn [String.prefix] in Hd.
    assert (Hc : Ascii.eqb c "!" = false).
    { destruct (Ascii.eqb_spec c "!") as [->|_]; [|reflexivity].
      destruct (ascii_dec "!" "!"); [|congruence].
      destruct d'; discriminate Hd. }
    destruct ds as [|d2 ds]; cbn; eexists; split; try reflexivity; exact Hc.
Qed.

(** In the reference matcher a pattern anchored below the root never
    re-includes: the [!] of the line is no longer in first place. *)
Lemma anchored_never_negates (d : string) (ds : list string) (line : string)
    (r : GitWildMatch.rule) :
  Str.startswith d "!" = false ->
  String.eqb (path_str (d :: ds)) "." = false ->
  GitWildMatch.compile (anchored (d :: ds) line) = Some r ->
  GitWildMatch.include r = true.
Proof.
  intros Hd Hdot. unfold anchored. rewrite Hdot. cbn [path_str].
  destruct (anchored_first_char d ds line Hd) as (c & s & -> & Hc).
  unfold GitWildMatch.compile.
  destruct (_ || _ || _); [discriminate|].
  unfold GitWildMatch.strip_bang. rewrite Hc.
  destruct (match _ with [] => [] | _ => _ end); [discriminate|].
  intros Hr. injection Hr as <-. reflexivity.
Qed.

(** C3: with [*.log] followed by [!keep.log] in the [.gitignore] of the root,
    [keep.log] is kept and [other.log] is dropped.  With the same two lines in
    the [.gitignore] of the subdirectory [sub] the stored patterns are
    [sub/*.log] and [sub/!keep.log]; the second is no longer a negation, the
    matcher reports [sub/keep.log] as ignored, and the run renders
    [main.py] only. *)
Theorem negation_lost_below_root :
  patterns_of (gitignore_walk "r" [] Sample.negation_root) = ["*.log"; "!keep.log"]
  /\ walk Sample.plain ["*.log"; "!keep.log"] "r" [] Sample.negation_root
     = ["r/keep.log"; "r/main.py"]
  /\ patterns_of (gitignore_walk "r" [] Sample.negation_sub)
     = ["sub/*.log"; "sub/!keep.log"]
  /\ match_file ["sub/*.log"; "sub/!keep.log"] "sub/keep.log" = true
  /\ walk Sample.plain ["sub/*.log"; "sub/!keep.log"] "r" [] Sample.negation_sub
     = ["r/main.py"]
  /\ cli Sample.fs_sub ["r"] None false Sample.plain Sample.st0
     = (Ok tt, mkState (default_block "r/main.py" "M" false) [] 1).
Proof. repeat split; vm_compute; reflexivity. Qed.

(* ------------------------------------------------------------------------- *)
(** ** Further properties *)

(** *** Splitting strings *)

Lemma str_app_cons (c : ascii) (a b : string) :
  String c a +:+ b = String c (a +:+ b).
Proof. reflexivity. Qed.

Lemma str_app_nil_r (a : string) : a +:+ "" = a.
Proof. induction a as [|c a IH]; [reflexivity|]. now rewrite str_app_cons, IH. Qed.

Lemma str_app_assoc (a b c : string) : (a +:+ b) +:+ c = a +:+ (b +:+ c).
Proof.
  induction a as [|x a IH]; [reflexivity|]. now rewrite !str_app_cons, IH.
Qed.

Lemma snoc_app (cur : string) (c : ascii) (s : string) :
  Str.snoc cur c +:+ s = cur +:+ String c s.
Proof. unfold Str.snoc. now rewrite str_app_assoc. Qed.

Lemma no_char_app (bad : ascii -> bool) (a b : string) :
  no_char bad (a +:+ b) = no_char bad a && no_char bad b.
Proof.
  induction a as [|c a IH]; [reflexivity|].
  rewrite str_app_cons. cbn [no_char]. now rewrite IH, andb_assoc.
Qed.

Lemma split_go_no_sep (sep : ascii -> bool) (s cur : string) :
  no_char sep s = true -> Str.split_go sep cur s = [cur +:+ s].
Proof.
  revert cur. induction s as [|c s IH]; intros cur Hs.
  - cbn. now rewrite str_app_nil_r.
  - cbn [no_char] in Hs. apply andb_true_iff in Hs. destruct Hs as [Hc Hs].
    cbn [Str.split_go]. apply negb_true_iff in Hc. rewrite Hc, (IH _ Hs).
    now rewrite snoc_app.
Qed.

Lemma split_go_piece (sep : ascii -> bool) (p : string) (c : ascii) (rest cur : string) :
  no_char sep p = true -> sep c = true ->
  Str.split_go sep cur (p +:+ String c rest) = (cur +:+ p) :: Str.split_go sep "" rest.
Proof.
  revert cur. induction p as [|x p IH]; intros cur Hp Hc.
  - cbn [String.append Str.split_go]. change ("" +:+ String c rest) with (String c rest).
    cbn [Str.split_go]. now rewrite Hc, str_app_nil_r.
  - cbn [no_char] in Hp. apply andb_true_iff in Hp. destruct Hp as [Hx Hp].
    apply negb_true_iff in Hx. rewrite str_app_cons. cbn [Str.split_go].
    rewrite Hx, (IH _ Hp Hc). now rewrite snoc_app.
Qed.

Lemma split_go_In_no_char (sep : ascii -> bool) (s cur p : string) :
  no_char sep cur = true -> In p (Str.split_go sep cur s) -> no_char sep p = true.
Proof.
  revert cur. induction s as [|c s IH]; intros cur Hcur Hin.
  - destruct Hin as [<-|[]]. exact Hcur.
  - cbn [Str.split_go] in Hin. destruct (sep c) eqn:Hc.
    + destruct Hin as [<-|Hin]; [exact Hcur|]. now apply (IH "").
    + apply (IH (Str.snoc cur c)); [|exact Hin].
      unfold Str.snoc. rewrite no_char_app, Hcur. cbn. now rewrite Hc.
Qed.

Lemma split_go_not_nil (sep : ascii -> bool) (s cur : string) :
  Str.split_go sep cur s <> [].
Proof.
  revert cur. induction s as [|c s IH]; intros cur; cbn [Str.split_go]; [discriminate|].
  destruct (sep c); [discriminate|apply IH].
Qed.

Lemma last_cons_not_nil {A} (x d : A) (l : list A) :
  l <> [] -> List.last (x :: l) d = List.last l d.
Proof. destruct l; [congruence|reflexivity]. Qed.

Lemma last_split_go (sep : ascii -> bool) (a : string) (c : ascii) (b cur d : string) :
  sep c = true -> no_char sep b = true ->
  List.last (Str.split_go sep cur (a +:+ String c b)) d = b.
Proof.
  intros Hc Hb. revert cur. induction a as [|x a IH]; intros cur.
  - change ("" +:+ String c b) with (String c b). cbn [Str.split_go]. rewrite Hc.
    rewrite last_cons_not_nil by apply split_go_not_nil.
    now rewrite (split_go_no_sep sep b "" Hb).
  - rewrite str_app_cons. cbn [Str.split_go]. destruct (sep x).
    + rewrite last_cons_not_nil by apply split_go_not_nil. apply IH.
    + apply IH.
Qed.

Lemma filter_filter_same {A} (f : A -> bool) (l : list A) :
  List.filter f (List.filter f l) = List.filter f l.
Proof.
  rewrite filter_twice. apply filter_ext. intros a. now destruct (f a).
Qed.

(** *** Paths read from standard input *)

(** The separator test of each mode of [read_paths_from_stdin]. *)
Lemma read_paths_from_stdin_split (content : string) (null : bool) :
  read_paths_from_stdin (Some content) null =
  List.filter Str.nonempty
    (Str.split_go (if null then Ascii.eqb "000" else Str.isspace) "" content).
Proof.
  unfold read_paths_from_stdin, Str.split, Str.split_whitespace.
  destruct null; [reflexivity|apply filter_filter_same].
Qed.

Lemma split_terminated (sep : ascii -> bool) (c : ascii) (paths : list string) :
  sep c = true ->
  Forall (fun p => Str.nonempty p = true /\ no_char sep p = true) paths ->
  List.filter Str.nonempty (Str.split_go sep "" (terminated c paths)) = paths.
Proof.
  intros Hc. induction 1 as [|p paths [Hne Hp] _ IH]; [reflexivity|].
  cbn [terminated]. rewrite (split_go_piece sep p c _ "" Hp Hc).
  cbn [List.filter]. change ("" +:+ p) with p. now rewrite Hne, IH.
Qed.

(** X1: a list of paths written to standard input, each followed by a
    separator of the mode in force (the NUL character with [--null], a
    whitespace character without), is read back unchanged, provided no path
    is empty or holds a separator of that mode.  With [--null] a path may hold
    blanks and line feeds. *)
Theorem stdin_paths_round_trip (null : bool) (c : ascii) (paths : list string)
    (Hc : (if null then Ascii.eqb "000" else Str.isspace) c = true)
    (Hpaths : Forall (fun p => Str.nonempty p = true
                               /\ no_char (if null then Ascii.eqb "000" else Str.isspace) p = true)
                     paths) :
  read_paths_from_stdin (Some (terminated c paths)) null = paths.
Proof.
  rewrite read_paths_from_stdin_split. now apply split_terminated.
Qed.

Lemma stdin_paths_round_trip_witness :
  read_paths_from_stdin (Some (terminated "000" ["my notes.txt"; "src/a b.py"])) true
  = ["my notes.txt"; "src/a b.py"].
Proof.
  apply (stdin_paths_round_trip true "000" ["my notes.txt"; "src/a b.py"]);
    [reflexivity|].
  repeat constructor.
Defined.

(** X2: a path read from standard input is never empty and never holds a
    separator of the mode in force: no NUL character with [--null], no
    whitespace without.  When standard input is a terminal no path is read. *)
Theorem stdin_paths_clean (stdin : option string) (null : bool) (p : string)
    (Hin : In p (read_paths_from_stdin stdin null)) :
  p <> ""
  /\ no_char (if null then Ascii.eqb "000" else Str.isspace) p = true
  /\ stdin <> None.
Proof.
  destruct stdin as [content|]; [|destruct Hin].
  rewrite read_paths_from_stdin_split in Hin. apply filter_In in Hin.
  destruct Hin as [Hin Hne]. split; [|split; [|discriminate]].
  - intros ->. discriminate Hne.
  - now apply (split_go_In_no_char _ content "" p).
Qed.

Lemma stdin_paths_clean_witness :
  "b.txt" <> ""
  /\ no_char Str.isspace "b.txt" = true
  /\ Some ("a.txt" +:+ newline +:+ newline +:+ "  b.txt ") <> None.
Proof.
  apply (stdin_paths_clean (Some ("a.txt" +:+ newline +:+ newline +:+ "  b.txt ")) false "b.txt").
  vm_compute. right. left. reflexivity.
Defined.

(** *** The language tag *)

Lemma dict_get_missing (d : list (string * string)) (k default : string) :
  ~ In k (List.map fst d) -> Str.dict_get d k default = default.
Proof.
  induction d as [|[k' v] d IH]; intros Hk; [reflexivity|].
  cbn [Str.dict_get]. destruct (String.eqb_spec k' k) as [->|_].
  - exfalso. apply Hk. now left.
  - apply IH. intros Hin. apply Hk. now right.
Qed.

(** X3: the language tag of a Markdown block is looked up under the text
    after the last dot of the path, and a path without a dot is looked up
    whole, so that a file named like an extension gets that extension's tag;
    a key that is not in the table gives the empty tag.  The tag follows the
    fence on the second line of the block. *)
Theorem markdown_language_by_last_dot (stem ext : string)
    (Hext : no_char (Ascii.eqb ".") ext = true) :
  lang_of (stem +:+ "." +:+ ext) = Str.dict_get EXT_TO_LANG ext ""
  /\ lang_of ext = Str.dict_get EXT_TO_LANG ext ""
  /\ (In ext (List.map fst EXT_TO_LANG) \/ lang_of (stem +:+ "." +:+ ext) = "")
  /\ (forall (content : string) (line_numbers : bool) (st : state),
        out (snd (print_as_markdown (stem +:+ "." +:+ ext) content line_numbers st)) =
        out st ++
        [ stem +:+ "." +:+ ext;
          fence content +:+ Str.dict_get EXT_TO_LANG ext "";
          numbered line_numbers content;
          fence content ]).
Proof.
  assert (H1 : lang_of (stem +:+ "." +:+ ext) = Str.dict_get EXT_TO_LANG ext "").
  { unfold lang_of, Str.split.
    change ("." +:+ ext) with (String "."%char ext).
    rewrite (last_split_go (Ascii.eqb ".") stem "." ext "" ""); [reflexivity|reflexivity|exact Hext]. }
  split; [exact H1|]. split.
  { unfold lang_of, Str.split. now rewrite (split_go_no_sep _ ext "" Hext). }
  split.
  { destruct (in_dec string_dec ext (List.map fst EXT_TO_LANG)) as [Hin|Hout]; [now left|].
    right. rewrite H1. now apply dict_get_missing. }
  intros content line_numbers st. rewrite print_as_markdown_out. cbn [snd out].
  fold (lang_of (stem +:+ "." +:+ ext)). now rewrite H1.
Qed.

Lemma markdown_language_by_last_dot_witness :
  lang_of ("src/tool.v2" +:+ "." +:+ "py") = "python" /\ lang_of "py" = "python".
Proof.
  split.
  - exact (proj1 (markdown_language_by_last_dot "src/tool.v2" "py" eq_refl)).
  - exact (proj1 (proj2 (markdown_language_by_last_dot "src/tool.v2" "py" eq_refl))).
Defined.

(** *** Backtick runs under concatenation *)

Lemma run_length_app_le (a b : string) : run_length a <= run_length (a +:+ b).
Proof.
  induction a as [|c a IH]; [cbn; lia|].
  rewrite str_app_cons. cbn [run_length]. destruct (Ascii.eqb c "`"); lia.
Qed.

Lemma longest_run_app_l (a b : string) : longest_run a <= longest_run (a +:+ b).
Proof.
  induction a as [|c a IH]; [cbn; lia|].
  pose proof (run_length_app_le (String c a) b) as Hr.
  rewrite str_app_cons in *. cbn [longest_run]. lia.
Qed.

Lemma longest_run_app_r (a b : string) : longest_run b <= longest_run (a +:+ b).
Proof.
  induction a as [|c a IH]; [reflexivity|].
  rewrite str_app_cons. cbn [longest_run]. lia.
Qed.

Lemma run_length_app_sep (a : string) (c : ascii) (b : string) :
  Ascii.eqb c "`" = false -> run_length (a +:+ String c b) = run_length a.
Proof.
  intros Hc. induction a as [|x a IH].
  - change ("" +:+ String c b) with (String c b). cbn [run_length]. now rewrite Hc.
  - rewrite str_app_cons. cbn [run_length]. destruct (Ascii.eqb x "`"); congruence.
Qed.

Lemma longest_run_cons_sep (c : ascii) (b : string) :
  Ascii.eqb c "`" = false -> longest_run (String c b) = longest_run b.
Proof. intros Hc. cbn [longest_run run_length]. now rewrite Hc. Qed.

Lemma longest_run_app_sep (a : string) (c : ascii) (b : string) :
  Ascii.eqb c "`" = false ->
  longest_run (a +:+ String c b) = Nat.max (longest_run a) (longest_run b).
Proof.
  intros Hc. induction a as [|x a IH].
  - change ("" +:+ String c b) with (String c b).
    rewrite (longest_run_cons_sep c b Hc). reflexivity.
  - pose proof (run_length_app_sep (String x a) c b Hc) as Hr.
    rewrite str_app_cons in *. cbn [longest_run]. rewrite IH, Hr. lia.
Qed.

Lemma longest_run_uint (u : Decimal.uint) : longest_run (NilEmpty.string_of_uint u) = 0.
Proof. induction u; cbn [NilEmpty.string_of_uint]; try reflexivity; exact IHu. Qed.

Lemma longest_run_rjust (w n : nat) : longest_run (Str.rjust w (Str.of_nat n)) = 0.
Proof.
  unfold Str.rjust, Str.of_nat. induction (w - _) as [|k IH].
  - apply longest_run_uint.
  - cbn [Str.repeat]. rewrite str_app_cons. now rewrite longest_run_cons_sep.
Qed.

(** One step of the line splitter: after a boundary the splitter goes on
    with the rest of the text, or with the rest behind the line feed of a
    carriage return and line feed pair. *)
Lemma lines_go_step (brk : ascii -> bool) (c : ascii) (s : string) :
  exists rest,
    (rest = s \/ exists x, s = String x rest)
    /\ forall cur,
         Str.lines_go brk cur (String c s) =
         if brk c then cur :: Str.lines_go brk "" rest
         else Str.lines_go brk (Str.snoc cur c) s.
Proof.
  destruct s as [|x s2].
  - exists "". split; [now left|]. intros cur. reflexivity.
  - destruct (Ascii.eqb c "013") eqn:Hc;
      destruct x as [[] [] [] [] [] [] [] []];
      first
        [ exists s2; split; [right; eexists; reflexivity|];
          intros cur; cbn [Str.lines_go]; rewrite Hc; reflexivity
        | eexists; split; [left; reflexivity|];
          intros cur; cbn [Str.lines_go]; rewrite ?Hc; reflexivity ].
Qed.

Lemma longest_run_tail (c : ascii) (s : string) : longest_run s <= longest_run (String c s).
Proof. cbn [longest_run]. lia. Qed.

Lemma lines_go_runs_pair (brk : ascii -> bool) (s : string) :
  (forall cur l, In l (Str.lines_go brk cur s) -> longest_run l <= longest_run (cur +:+ s))
  /\ (forall c cur l, In l (Str.lines_go brk cur (String c s)) ->
                      longest_run l <= longest_run (cur +:+ String c s)).
Proof.
  induction s as [|x s IH].
  - assert (H0 : forall cur l, In l (Str.lines_go brk cur "") ->
                               longest_run l <= longest_run (cur +:+ "")).
    { intros cur l Hin. cbn [Str.lines_go] in Hin.
      destruct (String.eqb cur ""); [destruct Hin|].
      destruct Hin as [<-|[]]. apply longest_run_app_l. }
    split; [exact H0|]. intros c cur l Hin.
    destruct (lines_go_step brk c "") as (rest & Hrest & Heq).
    rewrite Heq in Hin. destruct Hrest as [->|(y & Hy)]; [|discriminate Hy].
    destruct (brk c).
    + destruct Hin as [<-|Hin]; [apply longest_run_app_l|]. destruct Hin.
    + rewrite <- snoc_app. rewrite <- (str_app_nil_r (Str.snoc cur c +:+ "")).
      rewrite str_app_nil_r. now apply H0.
  - destruct IH as [IH1 IH2]. split; [apply IH2|]. intros c cur l Hin.
    destruct (lines_go_step brk c (String x s)) as (rest & Hrest & Heq).
    rewrite Heq in Hin. destruct (brk c).
    + destruct Hin as [<-|Hin]; [apply longest_run_app_l|].
      transitivity (longest_run (String x s)).
      * destruct Hrest as [->|(y & Hy)].
        -- exact (IH2 x "" l Hin).
        -- injection Hy as <- <-. transitivity (longest_run s).
           ++ exact (IH1 "" l Hin).
           ++ apply longest_run_tail.
      * transitivity (longest_run (String c (String x s)));
          [apply longest_run_tail|apply longest_run_app_r].
    + rewrite <- snoc_app. now apply IH2.
Qed.

Lemma splitlines_runs (content l : string) :
  In l (Str.splitlines content) -> longest_run l <= longest_run content.
Proof. intros Hin. now apply (proj1 (lines_go_runs_pair Str.is_linebreak content) ""). Qed.

Lemma imap_In {A B} (f : nat -> A -> B) (l : list A) (y : B) :
  In y (imap f l) -> exists i x, In x l /\ y = f i x.
Proof.
  revert f. induction l as [|a l IH]; intros f Hin; [destruct Hin|].
  cbn [imap] in Hin. destruct Hin as [<-|Hin].
  - exists 0, a. split; [now left|reflexivity].
  - destruct (IH _ Hin) as (i & x & Hx & ->). exists (S i), x. split; [now right|reflexivity].
Qed.

Lemma longest_run_join (m : nat) (ls : list string) :
  (forall l, In l ls -> longest_run l <= m) ->
  longest_run (Str.join newline ls) <= m.
Proof.
  induction ls as [|a ls IH]; intros Hm; [cbn; lia|].
  unfold Str.join in *. cbn [String.concat]. destruct ls as [|b ls].
  - apply Hm. now left.
  - change (newline +:+ String.concat newline (b :: ls))
      with (String "010"%char (String.concat newline (b :: ls))).
    rewrite longest_run_app_sep by reflexivity.
    apply Nat.max_lub; [apply Hm; now left|].
    apply IH. intros l Hl. apply Hm. now right.
Qed.

Lemma add_line_numbers_runs (content : string) :
  longest_run (add_line_numbers content) <= longest_run content.
Proof.
  unfold add_line_numbers. apply longest_run_join. intros l Hl.
  apply imap_In in Hl. destruct Hl as (i & line & Hline & ->).
  change ("  " +:+ line) with (String " "%char (String " "%char line)).
  rewrite longest_run_app_sep by reflexivity.
  rewrite longest_run_rjust, !longest_run_cons_sep by reflexivity.
  cbn [Nat.max]. now apply splitlines_runs.
Qed.

(** X4: the fence of a Markdown block, which is computed from the content as
    read, does not occur in the content that is written between the fences,
    with line numbers or without: numbering the lines never lengthens a run
    of backticks. *)
Theorem markdown_fence_clear_of_content (content : string) (line_numbers : bool) :
  longest_run (numbered line_numbers content) <= longest_run content
  /\ longest_run (numbered line_numbers content) < String.length (fence content)
  /\ Str.contains (fence content) (numbered line_numbers content) = false.
Proof.
  assert (Hle : longest_run (numbered line_numbers content) <= longest_run content).
  { destruct line_numbers; cbn [numbered]; [apply add_line_numbers_runs|reflexivity]. }
  split; [exact Hle|]. rewrite fence_eq. split.
  - rewrite length_ticks. lia.
  - rewrite contains_ticks. apply Nat.leb_gt. lia.
Qed.

(** *** The width of line numbers *)

Lemma length_string_of_uint (u : Decimal.uint) :
  String.length (NilEmpty.string_of_uint u) = Decimal.nb_digits u.
Proof. induction u; cbn; congruence. Qed.

Lemma nb_digits_succ (d : Decimal.uint) :
  Decimal.nb_digits d <= Decimal.nb_digits (Decimal.Little.succ d).
Proof. induction d; cbn; lia. Qed.

Lemma nb_digits_to_lu_mono (k n : nat) :
  k <= n -> Decimal.nb_digits (Unsigned.to_lu k) <= Decimal.nb_digits (Unsigned.to_lu n).
Proof.
  induction 1 as [|n _ IH]; [reflexivity|].
  rewrite Unsigned.to_lu_succ. pose proof (nb_digits_succ (Unsigned.to_lu n)). lia.
Qed.

Lemma length_of_nat_mono (k n : nat) :
  k <= n -> String.length (Str.of_nat k) <= String.length (Str.of_nat n).
Proof.
  intros Hkn. unfold Str.of_nat.
  rewrite !length_string_of_uint, !Unsigned.to_uint_alt, !nb_digits_rev.
  now apply nb_digits_to_lu_mono.
Qed.

Lemma length_str_app (a b : string) :
  String.length (a +:+ b) = String.length a + String.length b.
Proof.
  induction a as [|c a IH]; [reflexivity|].
  rewrite str_app_cons. cbn [String.length]. now rewrite IH.
Qed.

Lemma length_repeat (c : ascii) (n : nat) : String.length (Str.repeat c n) = n.
Proof. induction n; cbn; congruence. Qed.

Lemma length_rjust (w : nat) (s : string) :
  String.length (Str.rjust w s) = Nat.max w (String.length s).
Proof. unfold Str.rjust. rewrite length_str_app, length_repeat. lia. Qed.

(** X5: the numbers [add_line_numbers] puts in front of the lines are right
    aligned: every number is padded to the width of the number of the last
    line, which itself is not padded, so that the text of every line starts
    in the same column.  The empty content stays empty. *)
Theorem line_numbers_aligned (content : string) :
  add_line_numbers content =
    Str.join newline
      (imap (fun i line =>
               Str.rjust (String.length (Str.of_nat (length (Str.splitlines content))))
                         (Str.of_nat (i + 1)) +:+ "  " +:+ line)
            (Str.splitlines content))
  /\ (forall i : nat,
        i < length (Str.splitlines content) ->
        String.length
          (Str.rjust (String.length (Str.of_nat (length (Str.splitlines content))))
                     (Str.of_nat (i + 1)))
        = String.length (Str.of_nat (length (Str.splitlines content))))
  /\ Str.rjust (String.length (Str.of_nat (length (Str.splitlines content))))
               (Str.of_nat (length (Str.splitlines content)))
     = Str.of_nat (length (Str.splitlines content))
  /\ add_line_numbers "" = "".
Proof.
  split; [reflexivity|]. split; [|split; [|reflexivity]].
  - intros i Hi. rewrite length_rjust.
    pose proof (length_of_nat_mono (i + 1) (length (Str.splitlines content))). lia.
  - unfold Str.rjust. now rewrite Nat.sub_diag.
Qed.

(** *** What the filters remove *)

Section Filters.
Context {E : Externals}.

(** X6: with ignore-files-only set the ignore patterns leave the list of
    directories as it is without patterns, so that a directory whose name
    matches a pattern is still walked; without it no directory left in the
    list matches a pattern.  In both cases no file left matches a pattern. *)
Theorem ignore_files_only_spares_directories (cfg : config) (rules : list string)
    (rel : rel_path) (dirs files : list string) :
  (if ignore_files_only cfg
   then fst (filter_listing cfg rules rel dirs files) =
        fst (filter_listing (with_ignore_patterns cfg []) rules rel dirs files)
   else forall d, In d (fst (filter_listing cfg rules rel dirs files)) ->
                  existsb (fnmatch d) (ignore_patterns cfg) = false)
  /\ (forall f, In f (snd (filter_listing cfg rules rel dirs files)) ->
                existsb (fnmatch f) (ignore_patterns cfg) = false).
Proof.
  split.
  - destruct (ignore_files_only cfg) eqn:Hfo.
    + rewrite !filter_listing_dirs. apply filter_ext. intros d.
      unfold dir_passes, hidden_ok, with_ignore_patterns.
      cbn [include_hidden ignore_files_only ignore_patterns]. now rewrite Hfo.
    + intros d Hd. rewrite filter_listing_dirs in Hd. apply filter_In in Hd.
      destruct Hd as [_ Hd]. unfold dir_passes, ignore_glob_ok in Hd.
      rewrite Hfo in Hd. cbn [orb] in Hd.
      apply andb_true_iff in Hd. destruct Hd as [Hd _].
      apply andb_true_iff in Hd. destruct Hd as [_ Hd].
      now apply negb_true_iff in Hd.
  - intros f Hf. rewrite filter_listing_files in Hf. apply filter_In in Hf.
    destruct Hf as [_ Hf]. unfold file_passes, ignore_glob_ok in Hf.
    apply andb_true_iff in Hf. destruct Hf as [Hf _].
    apply andb_true_iff in Hf. destruct Hf as [Hf _].
    apply andb_true_iff in Hf. destruct Hf as [_ Hf].
    now apply negb_true_iff in Hf.
Qed.

Lemma survives_mono (c1 c2 : config) (rules : list string) :
  (forall rel d, dir_passes c1 rules rel d = true -> dir_passes c2 rules rel d = true) ->
  (forall rel f, file_passes c1 rules rel f = true -> file_passes c2 rules rel f = true) ->
  forall rel n parts, survives c1 rules rel n parts -> survives c2 rules rel n parts.
Proof.
  intros Hd Hf rel n parts.
  induction 1 as [rel es f d Hin Hp|rel es d es' parts Hin Hp Hs IH].
  - apply (survives_file _ _ _ _ _ d); [exact Hin|now apply Hf].
  - apply (survives_below _ _ _ _ _ es'); [exact Hin|now apply Hd|exact IH].
Qed.

Lemma files_in_order_mono (c1 c2 : config) (rules : list string) (path : string) (n : node) :
  (forall rel d, dir_passes c1 rules rel d = true -> dir_passes c2 rules rel d = true) ->
  (forall rel f, file_passes c1 rules rel f = true -> file_passes c2 rules rel f = true) ->
  incl (files_in_order c1 rules path n) (files_in_order c2 rules path n).
Proof.
  intros Hd Hf s. unfold files_in_order. rewrite !sorted_In, !walk_In.
  intros (parts & Hs & ->). exists parts. split; [|reflexivity].
  now apply (survives_mono c1 c2 rules Hd Hf).
Qed.

(** X7: every filter only removes files.  Under the same rule set the
    walker's output is contained in the output with hidden entries included,
    in the output without ignore patterns, and in the output without
    extension filter. *)
Theorem filters_only_remove (cfg : config) (rules : list string) (path : string) (n : node) :
  incl (files_in_order cfg rules path n)
       (files_in_order (with_hidden cfg true) rules path n)
  /\ incl (files_in_order cfg rules path n)
          (files_in_order (with_ignore_patterns cfg []) rules path n)
  /\ incl (files_in_order cfg rules path n)
          (files_in_order (with_extensions cfg []) rules path n).
Proof.
  split; [|split]; apply files_in_order_mono; intros rel x;
    unfold dir_passes, file_passes, hidden_ok, ignore_glob_ok, extension_ok,
           with_hidden, with_ignore_patterns, with_extensions;
    cbn [include_hidden ignore_files_only ignore_patterns extensions existsb negb orb];
    rewrite ?orb_true_r, ?andb_true_r; cbn [andb];
    intros H; repeat (apply andb_true_iff in H; destruct H as [H ?]);
    repeat (apply andb_true_iff; split); try assumption; try reflexivity.
Qed.


End Filters.

(** *** Several targets *)

Section Targets.
Context {E : Externals}.
Variables (fs : string -> option node) (cfg : config).

Lemma run_texts_app (l1 l2 : list string) :
  run_texts fs cfg (l1 ++ l2) = run_texts fs cfg l1 ++ run_texts fs cfg l2.
Proof. apply flat_map_app. Qed.

Lemma run_warnings_app (l1 l2 : list string) :
  run_warnings fs cfg (l1 ++ l2) = run_warnings fs cfg l1 ++ run_warnings fs cfg l2.
Proof. apply flat_map_app. Qed.

(** X9: the targets are rendered in the order given, the [paths] arguments
    before the paths read from standard input, each target with its own files
    sorted; the files are not sorted across targets.  In the XML format the
    numbering runs on from one target to the next.  Warnings are echoed in the
    same order. *)
Theorem targets_rendered_in_order (paths : list string) (stdin : option string)
    (null : bool) (st : state)
    (Hall : forallb (path_exists fs) (paths ++ read_paths_from_stdin stdin null) = true) :
  out (snd (cli fs paths stdin null cfg st)) =
    out st ++ header cfg
    ++ blocks cfg 1 (run_texts fs cfg paths)
    ++ blocks cfg (advance cfg 1 (length (run_texts fs cfg paths)))
         (run_texts fs cfg (read_paths_from_stdin stdin null))
    ++ footer cfg
  /\ err (snd (cli fs paths stdin null cfg st)) =
     err st ++ run_warnings fs cfg paths
     ++ run_warnings fs cfg (read_paths_from_stdin stdin null).
Proof.
  rewrite (cli_run fs cfg paths stdin null st Hall). cbn [snd out err].
  rewrite run_texts_app, run_warnings_app, blocks_app, <- !app_assoc. now split.
Qed.

End Targets.

Lemma targets_rendered_in_order_witness :
  forallb (path_exists Sample.fs) (["b.txt"] ++ read_paths_from_stdin (Some "d a.txt") false) = true
  /\ out (snd (cli Sample.fs ["b.txt"] (Some "d a.txt") false Sample.xml Sample.st0)) =
     ["<documents>"]
     ++ xml_block 1 "b.txt" "B" false
     ++ xml_block 2 "d/a.txt" "A" false
     ++ xml_block 3 "d/c.txt" "C" false
     ++ xml_block 4 "a.txt" "A" false
     ++ ["</documents>"].
Proof.
  split; [reflexivity|].
  exact (proj1 (targets_rendered_in_order Sample.fs Sample.xml ["b.txt"] (Some "d a.txt")
                  false Sample.st0 eq_refl)).
Defined.

(** *** A run that stops at a missing target *)

Lemma last_app_not_nil {A} (l1 l2 : list A) (d : A) :
  l2 <> [] -> List.last (l1 ++ l2) d = List.last l2 d.
Proof.
  intros Hne. induction l1 as [|a l1 IH]; [reflexivity|].
  cbn [app]. rewrite last_cons_not_nil; [exact IH|].
  destruct l1; [exact Hne|discriminate].
Qed.

Section Abort.
Context {E : Externals}.

Lemma blocks_not_nil_xml (cfg : config) (i : nat) (l : list (string * string)) :
  claude_xml cfg = true -> l <> [] -> blocks cfg i l <> [].
Proof.
  intros Hx Hl. destruct l as [|[p c] l]; [congruence|].
  cbn [blocks]. unfold block. rewrite Hx. discriminate.
Qed.

Lemma blocks_last_xml (cfg : config) (l : list (string * string)) :
  claude_xml cfg = true ->
  forall (i : nat) (d : string), l <> [] -> List.last (blocks cfg i l) d = "</document>".
Proof.
  intros Hx. induction l as [|[p c] l IH]; intros i d Hl; [congruence|].
  cbn [blocks]. destruct l as [|q l].
  - cbn [blocks]. rewrite app_nil_r. unfold block. rewrite Hx. reflexivity.
  - rewrite last_app_not_nil.
    + apply IH. discriminate.
    + apply blocks_not_nil_xml; [exact Hx|discriminate].
Qed.

(** X10: in the XML format a run that stops at a missing path read from
    standard input has written [<documents>] and the documents of the targets
    before it, and never the closing [</documents>]: the last line written is
    the opening tag or the end of a document. *)
Theorem abort_leaves_documents_open (fs : string -> option node)
    (paths : list string) (stdin : option string) (null : bool) (cfg : config)
    (st : state) (pre post : list string) (p : string)
    (Hxml : claude_xml cfg = true)
    (Hargs : forallb (path_exists fs) paths = true)
    (Hsplit : paths ++ read_paths_from_stdin stdin null = pre ++ p :: post)
    (Hpre : forallb (path_exists fs) pre = true)
    (Hp : fs p = None) :
  out (snd (cli_command fs paths stdin null cfg st)) =
    out st ++ "<documents>" :: blocks cfg 1 (run_texts fs cfg pre)
  /\ (List.last ("<documents>" :: blocks cfg 1 (run_texts fs cfg pre)) "" = "<documents>"
      \/ List.last ("<documents>" :: blocks cfg 1 (run_texts fs cfg pre)) "" = "</document>")
  /\ List.last ("<documents>" :: blocks cfg 1 (run_texts fs cfg pre)) "" <> "</documents>".
Proof.
  assert (Hlast :
    List.last ("<documents>" :: blocks cfg 1 (run_texts fs cfg pre)) "" = "<documents>"
    \/ List.last ("<documents>" :: blocks cfg 1 (run_texts fs cfg pre)) "" = "</document>").
  { destruct (run_texts fs cfg pre) as [|t ts] eqn:Ht; [now left|].
    right. rewrite last_cons_not_nil.
    - apply blocks_last_xml; [exact Hxml|discriminate].
    - apply blocks_not_nil_xml; [exact Hxml|discriminate]. }
  split; [|split; [exact Hlast|]].
  - unfold cli_command. apply find_none_forallb in Hargs. rewrite Hargs.
    rewrite (cli_missing fs cfg paths stdin null pre post p st Hsplit Hpre Hp).
    cbn [snd out]. unfold header. now rewrite Hxml.
  - destruct Hlast as [-> | ->]; discriminate.
Qed.

End Abort.

Lemma abort_leaves_documents_open_witness :
  out (snd (cli_command Sample.fs [] (Some "a.txt nowhere b.txt") false Sample.xml Sample.st0))
  = [] ++ "<documents>" :: blocks Sample.xml 1 (run_texts Sample.fs Sample.xml ["a.txt"]).
Proof.
  exact (proj1 (abort_leaves_documents_open Sample.fs [] (Some "a.txt nowhere b.txt") false
                  Sample.xml Sample.st0 ["a.txt"] ["b.txt"] "nowhere"
                  eq_refl eq_refl eq_refl eq_refl eq_refl)).
Defined.

(** *** The outcomes of a run *)



(** *** Warnings of the first walk *)



Section Warned.
Context {E : Externals}.




(** *** Hidden entries *)



End Warned.


(** *** Both format flags *)

Lemma for_each_ext {A} (f g : A -> M unit) (l : list A) :
  (forall x st, f x st = g x st) -> forall st, for_each l f st = for_each l g st.
Proof.
  intros Hfg. induction l as [|x l IH]; intros st; [reflexivity|].
  cbn [for_each]. unfold bind. rewrite Hfg.
  destruct (g x st) as [[[]|e] st']; [apply IH|reflexivity].
Qed.

Section Formats.
Context {E : Externals}.
Variables (cfg : config) (cxml md : bool).

Lemma walk_formats (rules : list string) (n : node) :
  forall (root : string) (rel : rel_path),
    walk (with_formats cfg cxml md) rules root rel n = walk cfg rules root rel n.
Proof.
  induction n as [d|es IH] using node_rect'; intros root rel; [reflexivity|].
  rewrite Stdlib.Lists.List.Forall_forall in IH. cbn [walk].
  change (filter_listing (with_formats cfg cxml md) rules rel (dir_names es) (file_names es))
    with (filter_listing cfg rules rel (dir_names es) (file_names es)).
  destruct (filter_listing cfg rules rel (dir_names es) (file_names es)) as [dirs files].
  f_equal. apply flat_map_ext_on. intros e He.
  destruct (is_dir (snd e) && mem (fst e) dirs); [now apply IH|reflexivity].
Qed.

Lemma path_texts_formats (path : string) (n : node) :
  path_texts (with_formats cfg cxml md) path n = path_texts cfg path n.
Proof.
  destruct n as [[c|]|es]; try reflexivity.
  unfold path_texts, files_in_order.
  change (path_events (with_formats cfg cxml md) path (Dir es))
    with (path_events cfg path (Dir es)).
  now rewrite walk_formats.
Qed.

Lemma path_warnings_formats (path : string) (n : node) :
  path_warnings (with_formats cfg cxml md) path n = path_warnings cfg path n.
Proof.
  destruct n as [[c|]|es]; try reflexivity.
  unfold path_warnings, files_in_order.
  change (path_events (with_formats cfg cxml md) path (Dir es))
    with (path_events cfg path (Dir es)).
  now rewrite walk_formats.
Qed.

End Formats.

Section Precedence.
Context {E : Externals}.

Lemma blocks_xml_any_markdown (cfg : config) (md : bool) (i : nat)
    (l : list (string * string)) :
  blocks (with_formats cfg true md) i l = blocks (with_formats cfg true false) i l.
Proof.
  revert i. induction l as [|[p c] l IH]; intros i; [reflexivity|].
  cbn [blocks]. now rewrite IH.
Qed.

Lemma process_path_xml_any_markdown (cfg : config) (md : bool) (path : string)
    (n : node) (st : state) :
  process_path path n (with_formats cfg true md) st =
  process_path path n (with_formats cfg true false) st.
Proof.
  rewrite !process_path_run, !path_texts_formats, !path_warnings_formats.
  now rewrite blocks_xml_any_markdown.
Qed.

(** X14: when both format flags are set the XML format wins: a run with
    [--cxml] and [--markdown] is the run with [--cxml] alone, in what it
    writes, what it warns about, how it ends and where it leaves the
    counter. *)
Theorem xml_takes_precedence_over_markdown (fs : string -> option node)
    (paths : list string) (stdin : option string) (null : bool) (cfg : config)
    (st : state) :
  cli fs paths stdin null (with_formats cfg true true) st =
  cli fs paths stdin null (with_formats cfg true false) st.
Proof.
  rewrite !cli_unfold.
  rewrite (for_each_ext (visit fs (with_formats cfg true true))
                        (visit fs (with_formats cfg true false))).
  - reflexivity.
  - intros p st'. unfold visit. destruct (fs p); [|reflexivity].
    apply process_path_xml_any_markdown.
Qed.

End Precedence.
